(** * Score aggregation pipeline ([scores_4.py]): model and verified properties

    The program loads rows from a CSV file, groups the scores by participant,
    computes average / maximum / minimum per participant and prints a
    fixed-width table in which the rows with the highest and the lowest
    average are emphasised.

    Conventions of the embedding:
    - a Python [str] is the list of its code points ([pystr]);
    - a Python [dict] is an association list in insertion order ([dict]);
    - a Python [float] is a finite binary64 number ([float]), and the true
      division of two integers is the correctly rounded quotient;
    - an exception is a value of [exn], carried by the [result] monad;
    - what [print] receives is a list of lines, threaded through [io];
    - a row of the file is a dictionary of strings ([row]): the lines of the
      file have at least as many cells as the header;
    - the statements at module level that import colorama are [startup], a
      call of [main] is [run], and the script as a whole is [program]. *)

From Stdlib Require Import ZArith NArith List Bool Lia QArith.
From Stdlib Require Import Permutation Sorted String Ascii Qabs.
Import ListNotations.

Open Scope Z_scope.

(** ** Strings *)

Definition pystr := list N.

Definition lit (s : string) : pystr :=
  List.map N_of_ascii (list_ascii_of_string s).

Definition str_eq_dec (s t : pystr) : {s = t} + {s <> t} :=
  list_eq_dec N.eq_dec s t.

Definition str_eqb (s t : pystr) : bool :=
  if str_eq_dec s t then true else false.

(** Lexicographic comparison by code point, as [str.__lt__]. *)
Fixpoint str_ltb (s t : pystr) : bool :=
  match s, t with
  | _, [] => false
  | [], _ :: _ => true
  | c :: s', d :: t' =>
      if N.ltb c d then true
      else if N.eqb c d then str_ltb s' t'
      else false
  end.

Definition space : N := 32%N.

(** [f"{s:<w}"]: left-aligned, padded with spaces up to [w] characters,
    never truncated. *)
Definition ljust (w : nat) (s : pystr) : pystr :=
  s ++ repeat space (w - List.length s).

(** Decimal digits of a natural number, from the Standard Library's
    conversion to [Decimal.uint]. *)
Fixpoint uint_codes (u : Decimal.uint) : pystr :=
  match u with
  | Decimal.Nil => []
  | Decimal.D0 u' => 48%N :: uint_codes u'
  | Decimal.D1 u' => 49%N :: uint_codes u'
  | Decimal.D2 u' => 50%N :: uint_codes u'
  | Decimal.D3 u' => 51%N :: uint_codes u'
  | Decimal.D4 u' => 52%N :: uint_codes u'
  | Decimal.D5 u' => 53%N :: uint_codes u'
  | Decimal.D6 u' => 54%N :: uint_codes u'
  | Decimal.D7 u' => 55%N :: uint_codes u'
  | Decimal.D8 u' => 56%N :: uint_codes u'
  | Decimal.D9 u' => 57%N :: uint_codes u'
  end.

Definition str_of_N (n : N) : pystr := uint_codes (N.to_uint n).

Definition minus_sign : N := 45%N.

(** [str(z)] for an integer. *)
Definition str_of_int (z : Z) : pystr :=
  if z <? 0 then minus_sign :: str_of_N (Z.abs_N z) else str_of_N (Z.abs_N z).

(** ** Exceptions and the error monad *)

Inductive value_error :=
| InvalidLiteral (text : pystr)     (* int() could not parse [text] *)
| EmptySequence (fn : pystr).       (* max() / min() of an empty sequence *)

Inductive exn :=
| FileNotFoundError
| KeyError (key : pystr)
| ValueError (why : value_error)
| OverflowError
| ZeroDivisionError
| OtherError (msg : pystr).

Inductive result (A : Type) :=
| Ok (a : A)
| Err (e : exn).
Arguments Ok {A} a.
Arguments Err {A} e.

Definition bind {A B : Type} (r : result A) (k : A -> result B) : result B :=
  match r with
  | Ok a => k a
  | Err e => Err e
  end.

Declare Scope result_scope.
Delimit Scope result_scope with result.
Notation "x <- r ;; k" := (bind r (fun x => k))
  (at level 61, r at next level, right associativity) : result_scope.
Open Scope result_scope.

Definition is_ok {A : Type} (r : result A) : bool :=
  match r with Ok _ => true | Err _ => false end.

(** ** Dictionaries in insertion order *)

Section Dict.
Context {V : Type}.

Definition dict := list (pystr * V).

Fixpoint dict_get (k : pystr) (d : dict) : option V :=
  match d with
  | [] => None
  | (k', v) :: d' => if str_eqb k k' then Some v else dict_get k d'
  end.

(** [d[k] = v]: an existing key keeps its position, a new key goes last. *)
Fixpoint dict_set (k : pystr) (v : V) (d : dict) : dict :=
  match d with
  | [] => [(k, v)]
  | (k', v') :: d' =>
      if str_eqb k k' then (k', v) :: d' else (k', v') :: dict_set k v d'
  end.

Definition keys (d : dict) : list pystr := List.map fst d.
Definition values (d : dict) : list V := List.map snd d.

(** [d[k]] raising [KeyError]. *)
Definition dict_lookup (k : pystr) (d : dict) : result V :=
  match dict_get k d with
  | Some v => Ok v
  | None => Err (KeyError k)
  end.
End Dict.
Arguments dict V : clear implicits.

(** ** Binary64 floating point *)

(** Finite floats only: the program obtains floats by dividing integers,
    which either returns a finite number or raises. The value of
    [Ffinite s m e] is [(-1)^s * m * 2^e]. *)
Inductive float :=
| Fzero (neg : bool)
| Ffinite (neg : bool) (m : positive) (e : Z).

Definition signed (neg : bool) (m : positive) : Z :=
  if neg then Z.neg m else Z.pos m.

(** The rational [m * 2^e]. *)
Definition dyadic (m e : Z) : Q :=
  if 0 <=? e then inject_Z (m * 2 ^ e) else Qmake m (Z.to_pos (2 ^ (- e))).

Definition F2Q (f : float) : Q :=
  match f with
  | Fzero _ => 0%Q
  | Ffinite s m e => dyadic (signed s m) e
  end.

(** Comparisons are those of the exact values ([0.0 == -0.0]). *)
Definition float_ltb (f g : float) : bool :=
  match Qcompare (F2Q f) (F2Q g) with Lt => true | _ => false end.

Definition float_eqb (f g : float) : bool :=
  match Qcompare (F2Q f) (F2Q g) with Eq => true | _ => false end.

(** Mixed comparison [int <= float] and [float <= int]: Python compares the
    exact values. *)
Definition int_le_float (z : Z) (f : float) : bool :=
  match Qcompare (inject_Z z) (F2Q f) with Gt => false | _ => true end.

Definition float_le_int (f : float) (z : Z) : bool :=
  match Qcompare (F2Q f) (inject_Z z) with Gt => false | _ => true end.

Definition emin : Z := -1074.
Definition emax : Z := 971.

(** Nearest integer to [num / den], ties to even ([0 <= num], [0 < den]). *)
Definition round_half_even (num den : Z) : Z :=
  let q := num / den in
  let r := num mod den in
  match 2 * r ?= den with
  | Lt => q
  | Eq => if Z.even q then q else q + 1
  | Gt => q + 1
  end.

(** [floor (log2 (a / b))] for positive [a], [b]. *)
Definition quot_log2 (a b : Z) : Z :=
  let k := Z.log2 a - Z.log2 b in
  let ge := if 0 <=? k then b * 2 ^ k <=? a else b <=? a * 2 ^ (- k) in
  if ge then k else k - 1.

(** Exponent of the unit in the last place for the quotient [a / b]. *)
Definition quot_exp (a b : Z) : Z := Z.max (quot_log2 a b - 52) emin.

(** Correctly rounded quotient of two positive integers, with sign [neg]. *)
Definition div_pos (neg : bool) (a b : Z) : result float :=
  let e := quot_exp a b in
  let m := if 0 <=? e then round_half_even a (b * 2 ^ e)
           else round_half_even (a * 2 ^ (- e)) b in
  let '(m', e') := if m =? 2 ^ 53 then (2 ^ 52, e + 1) else (m, e) in
  match m' with
  | Z.pos p => if emax <? e' then Err OverflowError else Ok (Ffinite neg p e')
  | _ => Ok (Fzero neg)
  end.

(** [a / b] on Python integers. *)
Definition int_truediv (a b : Z) : result float :=
  match a, b with
  | _, 0 => Err ZeroDivisionError
  | 0, _ => Ok (Fzero (b <? 0))
  | _, _ => div_pos (negb (Bool.eqb (a <? 0) (b <? 0))) (Z.abs a) (Z.abs b)
  end.

(** ** Formatting *)

Definition dot : N := 46%N.

Definition sign_text (neg : bool) : pystr := if neg then [minus_sign] else [].

(** Tenths of the absolute value, rounded to nearest with ties to even on the
    exact binary value. *)
Definition tenths (m : positive) (e : Z) : Z :=
  if 0 <=? e then 10 * Z.pos m * 2 ^ e
  else round_half_even (10 * Z.pos m) (2 ^ (- e)).

Definition fixed1 (neg : bool) (n : Z) : pystr :=
  sign_text neg ++ str_of_N (Z.to_N (n / 10)) ++ dot :: str_of_N (Z.to_N (n mod 10)).

(** [f"{score:.1f}"] *)
Definition format_score (score : float) : pystr :=
  match score with
  | Fzero s => fixed1 s 0
  | Ffinite s m e => fixed1 s (tenths m e)
  end.

(** ** Built-in reductions *)

(** [sum(l)] *)
Definition sum (l : list Z) : Z := fold_left Z.add l 0.

Section Extremes.
Context {A : Type} (ltb : A -> A -> bool).

(** [max(l)]: the first of the largest items; [ValueError] on []. *)
Definition py_max (l : list A) : result A :=
  match l with
  | [] => Err (ValueError (EmptySequence (lit "max")))
  | x :: xs => Ok (fold_left (fun m y => if ltb m y then y else m) xs x)
  end.

(** [min(l)]: the first of the smallest items; [ValueError] on []. *)
Definition py_min (l : list A) : result A :=
  match l with
  | [] => Err (ValueError (EmptySequence (lit "min")))
  | x :: xs => Ok (fold_left (fun m y => if ltb y m then y else m) xs x)
  end.
End Extremes.

(** [sorted(names)]: a stable insertion sort under [str_ltb]. *)
Fixpoint insert_sorted (x : pystr) (l : list pystr) : list pystr :=
  match l with
  | [] => [x]
  | y :: l' => if str_ltb y x then y :: insert_sorted x l' else x :: y :: l'
  end.

Definition sorted (l : list pystr) : list pystr :=
  fold_right insert_sorted [] l.

(** ** Output *)

Definition output := list pystr.

(** Commands that print: the lines printed so far are threaded through. *)
Definition io (A : Type) := output -> output * result A.

Definition ret {A : Type} (a : A) : io A := fun out => (out, Ok a).
Definition print (line : pystr) : io unit := fun out => (out ++ [line], Ok tt).
Definition lift {A : Type} (r : result A) : io A := fun out => (out, r).

Definition io_bind {A B : Type} (c : io A) (k : A -> io B) : io B :=
  fun out =>
    match c out with
    | (out', Ok a) => k a out'
    | (out', Err e) => (out', Err e)
    end.

Declare Scope io_scope.
Delimit Scope io_scope with io.
Notation "x <~ c ;; k" := (io_bind c (fun x => k))
  (at level 61, c at next level, right associativity) : io_scope.
Notation "c ;;; k" := (io_bind c (fun _ => k))
  (at level 61, right associativity) : io_scope.

(** [for x in l: body x] *)
Fixpoint for_each {A : Type} (l : list A) (body : A -> io unit) : io unit :=
  match l with
  | [] => ret tt
  | x :: l' => io_bind (body x) (fun _ => for_each l' body)
  end.

(** ** Data model *)

(** A row as [csv.DictReader] yields it: field name to cell text. Every cell
    of a [row] is a string: these are the rows of the lines that have at
    least as many cells as the header (the cells beyond the header, kept
    under the key [None], are not read by the program). A line with fewer
    cells has no counterpart here: the reader fills its missing cells with
    [None], on which [int] raises [TypeError] in the aggregator, and a
    [None] name raises [TypeError] when the table is printed, after the
    heading. The properties below are about files without such lines. *)
Definition row := dict pystr.

(** The dictionary [{'average': ..., 'max': ..., 'min': ...}] of one
    participant. *)
Record stats := mkStats { average : float; max_score : Z; min_score : Z }.

(** Which branch of the colouring test a table row takes: the first ("high",
    red and bright), the second ("low", blue and bright) or neither. *)
Inductive emphasis := High | Low | Plain.

(** [Fore] and [Style]: colorama's escape codes, or the empty strings of the
    fallback classes. The output of the model is the text handed to [print];
    what colorama's stream wrapper does with it afterwards is outside. *)
Record palette := mkPalette { RED : pystr; BLUE : pystr; BRIGHT : pystr; RESET_ALL : pystr }.

Definition esc (code : string) : pystr := 27%N :: lit code.

Definition colorama : palette :=
  {| RED := esc "[31m"; BLUE := esc "[34m"; BRIGHT := esc "[1m"; RESET_ALL := esc "[0m" |}.

Definition plain : palette :=
  {| RED := []; BLUE := []; BRIGHT := []; RESET_ALL := [] |}.

(** String literals of the program, by code point. *)
Definition key_name : pystr := [21517; 21069]%N.           (* 名前 *)
Definition key_score : pystr := [12473; 12467; 12450]%N.   (* スコア *)
Definition CSV_FILE : pystr := [35506; 38988; 50; 46; 99; 115; 118]%N. (* 課題2.csv *)
Definition head_name : pystr := [21442; 21152; 32773; 21517]%N.  (* 参加者名 *)
Definition head_average : pystr := [24179; 22343; 28857]%N.      (* 平均点 *)
Definition head_max : pystr := [26368; 39640; 28857]%N.          (* 最高点 *)
Definition head_min : pystr := [26368; 20302; 28857]%N.          (* 最低点 *)
Definition legend_title : pystr := [10; 20961; 20363; 58]%N.     (* \n凡例: *)
Definition square : pystr := [9632]%N.                           (* ■ *)
Definition legend_high : pystr :=
  [32; 24179; 22343; 20516; 12364; 26368; 12418; 39640; 12356; 34892]%N.
Definition legend_low : pystr :=
  [32; 24179; 22343; 20516; 12364; 26368; 12418; 20302; 12356; 34892]%N.
Definition msg_loading : pystr :=
  [67; 83; 86; 12501; 12449; 12452; 12523; 12434; 35501; 12415; 36796; 12435;
   12391; 12356; 12414; 12377; 46; 46; 46]%N.
Definition msg_loaded_pre : pystr := [12487; 12540; 12479; 12434; 32]%N.
Definition msg_loaded_post : pystr :=
  [32; 20214; 35501; 12415; 36796; 12415; 12414; 12375; 12383; 12290]%N.
Definition msg_computing : pystr :=
  [32113; 35336; 24773; 22577; 12434; 35336; 31639; 12375; 12390; 12356;
   12414; 12377; 46; 46; 46]%N.
Definition msg_computed_post : pystr :=
  [32; 21517; 12398; 21442; 21152; 32773; 12398; 32113; 35336; 24773; 22577;
   12434; 35336; 31639; 12375; 12414; 12375; 12383; 12290]%N.
Definition msg_not_found_pre : pystr :=
  [12456; 12521; 12540; 58; 32; 12501; 12449; 12452; 12523; 32; 39]%N.
Definition msg_not_found_post : pystr :=
  [39; 32; 12364; 35211; 12388; 12363; 12426; 12414; 12379; 12435; 12290]%N.
Definition msg_same_directory : pystr :=
  [12501; 12449; 12452; 12523; 12364; 21516; 12376; 12487; 12451; 12524;
   12463; 12488; 12522; 12395; 12354; 12427; 12371; 12392; 12434; 30906;
   35469; 12375; 12390; 12367; 12384; 12373; 12356; 12290]%N.
Definition msg_error_pre : pystr :=
  [12456; 12521; 12540; 12364; 30330; 29983; 12375; 12414; 12375; 12383; 58; 32]%N.
(* coloramaがインストールされていません。インストールを開始します... *)
Definition msg_not_installed : pystr :=
  [99; 111; 108; 111; 114; 97; 109; 97; 12364; 12452; 12531; 12473; 12488;
   12540; 12523; 12373; 12428; 12390; 12356; 12414; 12379; 12435; 12290;
   12452; 12531; 12473; 12488; 12540; 12523; 12434; 38283; 22987; 12375;
   12414; 12377; 46; 46; 46]%N.
(* coloramaのインストールが完了しました。 *)
Definition msg_installed : pystr :=
  [99; 111; 108; 111; 114; 97; 109; 97; 12398; 12452; 12531; 12473; 12488;
   12540; 12523; 12364; 23436; 20102; 12375; 12414; 12375; 12383; 12290]%N.
(* coloramaのインストールに失敗しました。色なしで表示します。 *)
Definition msg_install_failed : pystr :=
  [99; 111; 108; 111; 114; 97; 109; 97; 12398; 12452; 12531; 12473; 12488;
   12540; 12523; 12395; 22833; 25943; 12375; 12414; 12375; 12383; 12290;
   33394; 12394; 12375; 12391; 34920; 31034; 12375; 12414; 12377; 12290]%N.

(** ** Start of the module *)

(** How a [try] body of the start-up ends: without an exception, with
    [ImportError], with another [Exception], or with an exception that is
    no [Exception] (a keyboard interrupt). *)
Inductive attempt := Succeeds | RaisesImportError | RaisesException | RaisesBaseException.

(** What the environment does to the start-up: [first_try] is the outcome of
    importing colorama and calling [init]; [second_try] the outcome of
    running the installer, importing again and calling [init]. *)
Record environment := mkEnvironment { first_try : attempt; second_try : attempt }.

(** The statements at module level that import colorama: the lines they
    print and the palette they bind, or [None] when an exception escapes
    them, which ends the program before [main] is called. *)
Definition startup (env : environment) (out : output) : output * option palette :=
  match first_try env with
  | Succeeds => (out, Some colorama)
  | RaisesImportError =>
      let out1 := out ++ [msg_not_installed] in
      match second_try env with
      | Succeeds => (out1 ++ [msg_installed], Some colorama)
      | RaisesImportError | RaisesException => (out1 ++ [msg_install_failed], Some plain)
      | RaisesBaseException => (out1, None)
      end
  | RaisesException | RaisesBaseException => (out, None)
  end.

(** ** The program *)

(** What opening a path and iterating [csv.DictReader] over it yields: the
    rows, or the exception raised ([FileNotFoundError] for a missing path). *)
Definition filesystem := pystr -> result (list row).

Section Program.
(** [int(text)] on a string: [None] when Python raises [ValueError]. *)
Variable py_int : pystr -> option Z.
(** [str(e)] for an exception. *)
Variable describe : exn -> pystr.

Definition parse_int (text : pystr) : result Z :=
  match py_int text with
  | Some z => Ok z
  | None => Err (ValueError (InvalidLiteral text))
  end.

Definition load_csv_data (fs : filesystem) (filename : pystr) : result (list row) :=
  csv_reader <- fs filename ;;
  Ok (fold_left (fun data r => data ++ [r]) csv_reader []).

(** Body of the first loop of [calculate_statistics]. *)
Definition add_row (scores_by_person : dict (list Z)) (r : row)
  : result (dict (list Z)) :=
  name <- dict_lookup key_name r ;;
  text <- dict_lookup key_score r ;;
  score <- parse_int text ;;
  let scores := match dict_get name scores_by_person with
                | Some l => l
                | None => []
                end in
  Ok (dict_set name (scores ++ [score]) scores_by_person).

Fixpoint group_scores (data : list row) (scores_by_person : dict (list Z))
  : result (dict (list Z)) :=
  match data with
  | [] => Ok scores_by_person
  | r :: data' =>
      scores_by_person' <- add_row scores_by_person r ;;
      group_scores data' scores_by_person'
  end.

(** Body of the second loop. *)
Definition person_stats (scores : list Z) : result stats :=
  average <- int_truediv (sum scores) (Z.of_nat (List.length scores)) ;;
  max_score <- py_max Z.ltb scores ;;
  min_score <- py_min Z.ltb scores ;;
  Ok {| average := average; max_score := max_score; min_score := min_score |}.

Fixpoint summarize (groups : list (pystr * list Z)) (statistics : dict stats)
  : result (dict stats) :=
  match groups with
  | [] => Ok statistics
  | (name, scores) :: groups' =>
      st <- person_stats scores ;;
      summarize groups' (dict_set name st statistics)
  end.

Definition calculate_statistics (data : list row) : result (dict stats) :=
  scores_by_person <- group_scores data [] ;;
  summarize scores_by_person [].

Definition find_max_min_average (statistics : dict stats) : result (float * float) :=
  let averages := List.map average (values statistics) in
  max_average <- py_max float_ltb averages ;;
  min_average <- py_min float_ltb averages ;;
  Ok (max_average, min_average).

(** The [if] / [elif] of the row loop. *)
Definition row_emphasis (stat : stats) (max_average min_average : float) : emphasis :=
  if float_eqb (average stat) max_average then High
  else if float_eqb (average stat) min_average then Low
  else Plain.

Definition color_start (pal : palette) (em : emphasis) : pystr :=
  match em with
  | High => RED pal ++ BRIGHT pal
  | Low => BLUE pal ++ BRIGHT pal
  | Plain => []
  end.

Definition color_end (pal : palette) (em : emphasis) : pystr :=
  match em with
  | Plain => []
  | _ => RESET_ALL pal
  end.

Definition name_width : nat := 20.
Definition avg_width : nat := 15.
Definition max_width : nat := 15.
Definition min_width : nat := 15.

Definition rule : pystr := repeat 61%N 70.

(** The four padded columns of a line, separated by single spaces. *)
Definition columns (c1 c2 c3 c4 : pystr) : pystr :=
  ljust name_width c1 ++ space :: ljust avg_width c2 ++ space ::
  ljust max_width c3 ++ space :: ljust min_width c4.

Definition row_text (name : pystr) (stat : stats) : pystr :=
  columns name (format_score (average stat))
          (str_of_int (max_score stat)) (str_of_int (min_score stat)).

Definition row_line (pal : palette) (em : emphasis) (name : pystr) (stat : stats) : pystr :=
  color_start pal em ++ row_text name stat ++ color_end pal em.

Definition print_row (pal : palette) (statistics : dict stats)
           (max_average min_average : float) (name : pystr) : io unit :=
  (stat <~ lift (dict_lookup name statistics) ;;
   print (row_line pal (row_emphasis stat max_average min_average) name stat))%io.

Definition display_table (pal : palette) (statistics : dict stats) : io unit :=
  (extremes <~ lift (find_max_min_average statistics) ;;
   let '(max_average, min_average) := extremes in
   print (10%N :: rule) ;;;
   print (columns head_name head_average head_max head_min) ;;;
   print rule ;;;
   for_each (sorted (keys statistics))
            (print_row pal statistics max_average min_average) ;;;
   print rule ;;;
   print legend_title ;;;
   print (RED pal ++ BRIGHT pal ++ square ++ RESET_ALL pal ++ legend_high) ;;;
   print (BLUE pal ++ BRIGHT pal ++ square ++ RESET_ALL pal ++ legend_low))%io.

Definition str_of_len {A : Type} (l : list A) : pystr :=
  str_of_N (N.of_nat (List.length l)).

(** The [try] block of [main]. *)
Definition main_body (fs : filesystem) (pal : palette) : io unit :=
  (print msg_loading ;;;
   data <~ lift (load_csv_data fs CSV_FILE) ;;
   print (msg_loaded_pre ++ str_of_len data ++ msg_loaded_post) ;;;
   print msg_computing ;;;
   statistics <~ lift (calculate_statistics data) ;;
   print (str_of_len statistics ++ msg_computed_post) ;;;
   display_table pal statistics)%io.

Definition not_found_message : output :=
  [msg_not_found_pre ++ CSV_FILE ++ msg_not_found_post; msg_same_directory].

Definition generic_message (e : exn) : output := [msg_error_pre ++ describe e].

(** [main]: the [try] block with its two handlers; every exception of the
    model is an [Exception]. *)
Definition main (fs : filesystem) (pal : palette) : io unit :=
  fun out =>
    match main_body fs pal out with
    | (out', Ok tt) => (out', Ok tt)
    | (out', Err FileNotFoundError) => (out' ++ not_found_message, Ok tt)
    | (out', Err e) => (out' ++ generic_message e, Ok tt)
    end.

(** What a call of [main] prints, with the palette the start-up has bound. *)
Definition run (fs : filesystem) (pal : palette) : output := fst (main fs pal []).

(** Everything the program prints when run as a script: the lines of the
    start-up, then those of [main] if the start-up completes. *)
Definition program (env : environment) (fs : filesystem) : output :=
  match startup env [] with
  | (out, Some pal) => fst (main fs pal out)
  | (out, None) => out
  end.
End Program.

(** ** Instances of the built-ins for closed examples *)

(** [int(text)] on ASCII text: surrounding white space (the space and the
    characters from tab to carriage return), an optional sign, decimal
    digits with single underscores between them, and no more digits than
    the interpreter's limit of 4300. *)
Definition is_space (c : N) : bool :=
  ((c =? 32) || ((9 <=? c) && (c <=? 13)))%N.

Fixpoint lstrip (s : pystr) : pystr :=
  match s with
  | c :: s' => if is_space c then lstrip s' else s
  | [] => []
  end.

Definition strip (s : pystr) : pystr := rev (lstrip (rev (lstrip s))).

Fixpoint digits_value (s : pystr) (acc : Z) (after_digit : bool) : option Z :=
  match s with
  | [] => if after_digit then Some acc else None
  | c :: s' =>
      if ((48 <=? c) && (c <=? 57))%N
      then digits_value s' (10 * acc + Z.of_N (c - 48)) true
      else if ((c =? 95)%N && after_digit)%bool then digits_value s' acc false
      else None
  end.

Definition is_digit_code (c : N) : bool := ((48 <=? c) && (c <=? 57))%N.

Definition max_str_digits : N := 4300.

Definition unsigned_int (s : pystr) : option Z :=
  if (max_str_digits <? N.of_nat (List.length (filter is_digit_code s)))%N then None
  else digits_value s 0 false.

Definition ascii_int (text : pystr) : option Z :=
  match strip text with
  | 45%N :: s => option_map Z.opp (unsigned_int s)
  | 43%N :: s => unsigned_int s
  | s => unsigned_int s
  end.

(** [str(e)] for the exceptions of the model, for keys and texts whose
    [repr] is the text between single quotes, and score texts within the
    digit limit. *)
Definition quoted (s : pystr) : pystr := 39%N :: s ++ [39%N].

Definition describe_exn (e : exn) : pystr :=
  match e with
  | FileNotFoundError => lit "[Errno 2] No such file or directory"
  | KeyError key => quoted key
  | ValueError (InvalidLiteral text) =>
      lit "invalid literal for int() with base 10: " ++ quoted text
  | ValueError (EmptySequence fn) => fn ++ lit "() arg is an empty sequence"
  | OverflowError => lit "integer division result too large for a float"
  | ZeroDivisionError => lit "division by zero"
  | OtherError msg => msg
  end.

(** The row [csv.DictReader] yields for a line [name,score] under the header
    [名前,スコア]. *)
Definition record_row (name : pystr) (score : pystr) : row :=
  [(key_name, name); (key_score, score)].

Definition scenario_rows : list row :=
  [record_row (lit "Alice") (lit "80");
   record_row (lit "Bob") (lit "90");
   record_row (lit "Alice") (lit "100")].

(** ** Vocabulary of the statements *)

(** A record of the data model: participant name and integer score. *)
Definition record := (pystr * Z)%type.

(** The scores of one participant, in input order. *)
Definition scores_of (name : pystr) (recs : list record) : list Z :=
  List.map snd (filter (fun rec => str_eqb name (fst rec)) recs).

(** The participant names, one per record. *)
Definition names_of (recs : list record) : list pystr := List.map fst recs.

(** The grouping step on records: what the first loop does to the
    dictionary once a row has been read. *)
Definition add_record (acc : dict (list Z)) (rec : record) : dict (list Z) :=
  let scores := match dict_get (fst rec) acc with
                | Some l => l
                | None => []
                end in
  dict_set (fst rec) (scores ++ [snd rec]) acc.

(** The first loop on records, from the dictionary [acc]. *)
Definition group_records (recs : list record) (acc : dict (list Z)) : dict (list Z) :=
  fold_left add_record recs acc.

(** The scores collected so far for [name] (none when absent). *)
Definition scores_in (name : pystr) (acc : dict (list Z)) : list Z :=
  match dict_get name acc with
  | Some l => l
  | None => []
  end.

(** [m] is a largest (a smallest) element of [l]. *)
Definition is_max (m : Z) (l : list Z) : Prop := In m l /\ Forall (fun y => y <= m) l.
Definition is_min (m : Z) (l : list Z) : Prop := In m l /\ Forall (fun y => m <= y) l.

(** Statistics of every group, in order, stopping at the first failure. *)
Fixpoint each_stats (groups : list (pystr * list Z)) : result (dict stats) :=
  match groups with
  | [] => Ok []
  | (name, scores) :: groups' =>
      st <- person_stats scores ;;
      rest <- each_stats groups' ;;
      Ok ((name, st) :: rest)
  end.

(** A row that reads as a record: it has both fields and the score field
    parses. *)
Definition is_record (py_int : pystr -> option Z) (r : row) (rec : record) : Prop :=
  dict_get key_name r = Some (fst rec) /\
  exists text, dict_get key_score r = Some text /\ py_int text = Some (snd rec).

(** The quotient the aggregator computes for one participant. *)
Definition mean_of (name : pystr) (recs : list record) : result float :=
  int_truediv (sum (scores_of name recs)) (Z.of_nat (List.length (scores_of name recs))).

(** The scenario of the specification: records, statistics, and the rows in
    another order. *)
Definition scenario_records : list record :=
  [(lit "Alice", 80); (lit "Bob", 90); (lit "Alice", 100)].

Definition scenario_rows_reordered : list row :=
  [record_row (lit "Bob") (lit "90");
   record_row (lit "Alice") (lit "100");
   record_row (lit "Alice") (lit "80")].

Definition scenario_statistics : dict stats :=
  [(lit "Alice", {| average := Ffinite false 6333186975989760 (-46);
                    max_score := 100; min_score := 80 |});
   (lit "Bob", {| average := Ffinite false 6333186975989760 (-46);
                  max_score := 90; min_score := 90 |})].

(** Opposite of a float. *)
Definition fopp (f : float) : float :=
  match f with
  | Fzero s => Fzero (negb s)
  | Ffinite s m e => Ffinite (negb s) m e
  end.

(** [m] is an item of [l] of largest (of smallest) value. *)
Definition is_fmax (m : float) (l : list float) : Prop :=
  In m l /\ Forall (fun y => (F2Q y <= F2Q m)%Q) l.

Definition is_fmin (m : float) (l : list float) : Prop :=
  In m l /\ Forall (fun y => (F2Q m <= F2Q y)%Q) l.

(** The list comprehension of [find_max_min_average]. *)
Definition averages (statistics : dict stats) : list float :=
  List.map average (values statistics).

(** Strict and large order on names, from [str_ltb]. *)
Definition str_lt (s t : pystr) : Prop := str_ltb s t = true.
Definition str_le (s t : pystr) : Prop := str_ltb t s = false.

(** The entry of a name, as a list that is empty for an absent name. *)
Definition entry_of (statistics : dict stats) (name : pystr) : list (pystr * stats) :=
  match dict_get name statistics with
  | Some stat => [(name, stat)]
  | None => []
  end.

(** The entries in the order in which their rows are printed. *)
Definition sorted_entries (statistics : dict stats) : list (pystr * stats) :=
  flat_map (entry_of statistics) (sorted (keys statistics)).

(** The printed rows with the emphasis each one receives. *)
Definition marked_rows (statistics : dict stats) (max_average min_average : float)
  : list (emphasis * (pystr * stats)) :=
  List.map (fun entry => (row_emphasis (snd entry) max_average min_average, entry))
           (sorted_entries statistics).

(** The emphasis of the printed rows, from top to bottom. *)
Definition row_marks (statistics : dict stats) (max_average min_average : float)
  : list emphasis :=
  List.map fst (marked_rows statistics max_average min_average).

(** The line printed for a row. *)
Definition marked_line (pal : palette) (row : emphasis * (pystr * stats)) : pystr :=
  row_line pal (fst row) (fst (snd row)) (snd (snd row)).

(** The three lines above the rows and the four lines below them. *)
Definition table_head : output :=
  [10%N :: rule; columns head_name head_average head_max head_min; rule].

Definition table_foot (pal : palette) : output :=
  [rule; legend_title;
   RED pal ++ BRIGHT pal ++ square ++ RESET_ALL pal ++ legend_high;
   BLUE pal ++ BRIGHT pal ++ square ++ RESET_ALL pal ++ legend_low].

(** Everything [display_table] prints. *)
Definition table_lines (pal : palette) (statistics : dict stats)
           (max_average min_average : float) : output :=
  table_head ++
  List.map (marked_line pal) (marked_rows statistics max_average min_average) ++
  table_foot pal.


Definition is_low (em : emphasis) : bool :=
  match em with Low => true | _ => false end.

Definition count_marks (p : emphasis -> bool) (marks : list emphasis) : nat :=
  List.length (filter p marks).


(** Proves [NoDup] of a list of literal names. *)
Ltac distinct_names := repeat constructor; simpl; intuition discriminate.

(** The doubles 90.0 and 80.0. *)
Definition float_90 : float := Ffinite false 6333186975989760 (-46).
Definition float_80 : float := Ffinite false 5629499534213120 (-46).



(** The two participant lines of the scenario, with colorama's codes. *)
Definition scenario_row_alice : pystr :=
  esc "[31m" ++ esc "[1m" ++
  lit "Alice                90.0            100             80             " ++
  esc "[0m".

Definition scenario_row_bob : pystr :=
  esc "[31m" ++ esc "[1m" ++
  lit "Bob                  90.0            90              90             " ++
  esc "[0m".

(** An ASCII decimal digit. *)
Definition is_digit (c : N) : Prop := (48 <= c <= 57)%N.

(** The progress line printed after the load step. *)
Definition loaded_line (data : list row) : pystr :=
  msg_loaded_pre ++ str_of_len data ++ msg_loaded_post.

(** A file whose only row has a score that is not a number; a missing
    file. *)
Definition bad_score_rows : list row := [record_row (lit "A") (lit "abc")].


Definition missing_fs : filesystem := fun _ => Err FileNotFoundError.

(** An environment in which colorama is importable; one in which it is
    missing and the installer fails. *)
Definition importable_env : environment :=
  {| first_try := Succeeds; second_try := Succeeds |}.

Definition uninstallable_env : environment :=
  {| first_try := RaisesImportError; second_try := RaisesException |}.

(** The key whose lookup fails first in a row lacking a field. *)
Definition missing_key (r : row) : pystr :=
  match dict_get key_name r with
  | None => key_name
  | Some _ => key_score
  end.

(** The row has no name field or no score field. *)
Definition lacks_field (r : row) : Prop :=
  dict_get key_name r = None \/ dict_get key_score r = None.

(** Rows read under one header: [csv.DictReader] gives every row the field
    names of the header line, so a field is missing from all rows or from
    none. *)
Definition same_fields (data : list row) : Prop :=
  forall r r', In r data -> In r' data ->
  forall k, dict_get k r = None <-> dict_get k r' = None.

(** The rows of a file whose header has no score column. *)
Definition scoreless_row (name : pystr) : row := [(key_name, name)].

Definition scoreless_rows : list row := [scoreless_row (lit "A"); scoreless_row (lit "B")].

Definition scoreless_fs : filesystem := fun _ => Ok scoreless_rows.

(** ** Vocabulary of the further properties *)

(** The exceptions a row can raise in the first loop of the aggregator. *)
Definition row_failure (py_int : pystr -> option Z) (r : row) (e : exn) : Prop :=
  (dict_get key_name r = None /\ e = KeyError key_name) \/
  (dict_get key_name r <> None /\ dict_get key_score r = None /\ e = KeyError key_score) \/
  (exists text, dict_get key_name r <> None /\ dict_get key_score r = Some text /\
                py_int text = None /\ e = ValueError (InvalidLiteral text)).

(** Two rows with the same name cell and the same score cell. *)
Definition same_cells (r r' : row) : Prop :=
  dict_get key_name r = dict_get key_name r' /\
  dict_get key_score r = dict_get key_score r'.

(** A row with a third column besides name and score. *)
Definition wide_row (name score other : pystr) : row :=
  [(key_name, name); (key_score, score); (lit "memo", other)].


(** The statistics of a participant with the single score [score]. *)
Definition single_stats (avg : float) (score : Z) : stats :=
  {| average := avg; max_score := score; min_score := score |}.

(** The distinct names of a list, each at its first occurrence. *)
Fixpoint first_occurrences (l : list pystr) : list pystr :=
  match l with
  | [] => []
  | x :: l' => x :: filter (fun y => negb (str_eqb y x)) (first_occurrences l')
  end.

(** [name] is none of [names]. *)
Definition fresh_in (names : list pystr) (name : pystr) : bool :=
  negb (existsb (str_eqb name) names).

(** The double 7.0. *)
Definition float_7 : float := Ffinite false 7881299347898368 (-50).


(** The scenario with a further score of 70 for Bob. *)
Definition scenario_statistics_bob : dict stats :=
  [(lit "Alice", {| average := float_90; max_score := 100; min_score := 80 |});
   (lit "Bob", {| average := float_80; max_score := 90; min_score := 70 |})].

Definition bob_stats : stats :=
  {| average := float_90; max_score := 90; min_score := 90 |}.

(** A file with one score of Bob, and a further row whose score brings the
    mean beyond the floats. *)
Definition overflow_rows : list row := [record_row (lit "Bob") (lit "90")].

Definition overflow_row : row := record_row (lit "Bob") (str_of_int (2 ^ 1025)).


(** The progress line printed after the aggregation. *)
Definition computed_line (statistics : dict stats) : pystr :=
  str_of_len statistics ++ msg_computed_post.

(** The exception of [max] on an empty sequence. *)
Definition empty_max_error : exn := ValueError (EmptySequence (lit "max")).

(** A file with a header line and no other line; the file of the scenario. *)
Definition empty_fs : filesystem := fun _ => Ok [].

Definition scenario_fs : filesystem := fun _ => Ok scenario_rows.


(** The sign bit of a float. *)
Definition float_neg (f : float) : bool :=
  match f with
  | Fzero s => s
  | Ffinite s _ _ => s
  end.

(** The uncoloured text of a printed row. *)
Definition bare_line (row : emphasis * (pystr * stats)) : pystr :=
  row_text (fst (snd row)) (snd (snd row)).


(** A file that cannot be read for lack of permission; a file with a score
    beyond the floats. *)
Definition denied_fs : filesystem := fun _ => Err (OtherError (lit "Permission denied")).

Definition huge_rows : list row := [record_row (lit "A") (str_of_int (2 ^ 1024))].

Definition huge_fs : filesystem := fun _ => Ok huge_rows.

(** * Properties *)

(** ** Checks of the arithmetic on literals *)

Example truediv_180_2 : int_truediv 180 2 = Ok (Ffinite false 6333186975989760 (-46)).
Proof. reflexivity. Qed.

Example truediv_2p53_plus_1 :
  int_truediv 9007199254740993 1 = Ok (Ffinite false 4503599627370496 1).
Proof. reflexivity. Qed.

Example truediv_overflow : int_truediv (2 ^ 1024) 1 = Err OverflowError.
Proof. vm_compute. reflexivity. Qed.

Example format_90 : format_score (Ffinite false 6333186975989760 (-46)) = lit "90.0".
Proof. reflexivity. Qed.

Example format_quarter : format_score (Ffinite false 1 (-2)) = lit "0.2".
Proof. reflexivity. Qed.

(** ** Strings and their order *)

Lemma str_eqb_eq (s t : pystr) : str_eqb s t = true <-> s = t.
Proof.
  unfold str_eqb. destruct (str_eq_dec s t); split; congruence.
Qed.

Lemma str_eqb_neq (s t : pystr) : str_eqb s t = false <-> s <> t.
Proof.
  unfold str_eqb. destruct (str_eq_dec s t); split; congruence.
Qed.

Lemma str_eqb_refl (s : pystr) : str_eqb s s = true.
Proof. now apply str_eqb_eq. Qed.

Lemma str_eqb_sym (s t : pystr) : str_eqb s t = str_eqb t s.
Proof.
  destruct (str_eqb t s) eqn:E.
  - apply str_eqb_eq in E. subst. apply str_eqb_refl.
  - apply str_eqb_neq in E. apply str_eqb_neq. congruence.
Qed.

Lemma str_ltb_irrefl (s : pystr) : str_ltb s s = false.
Proof.
  induction s as [|c s IH]; simpl; [reflexivity|].
  rewrite N.ltb_irrefl, N.eqb_refl. exact IH.
Qed.

Lemma str_ltb_trans (s t u : pystr) :
  str_ltb s t = true -> str_ltb t u = true -> str_ltb s u = true.
Proof.
  revert t u. induction s as [|c s IH]; intros [|d t] [|x u]; simpl;
    try congruence.
  destruct (N.ltb_spec c d) as [Hcd|Hcd], (N.ltb_spec d x) as [Hdx|Hdx];
    destruct (N.eqb_spec c d) as [E1|E1], (N.eqb_spec d x) as [E2|E2];
    destruct (N.ltb_spec c x) as [Hcx|Hcx]; destruct (N.eqb_spec c x) as [E3|E3];
    try congruence; try lia; intros H1 H2.
  eapply IH; eassumption.
Qed.

Lemma str_ltb_asym (s t : pystr) : str_ltb s t = true -> str_ltb t s = false.
Proof.
  intros H. destruct (str_ltb t s) eqn:E; [|reflexivity].
  pose proof (str_ltb_trans _ _ _ H E) as C.
  rewrite str_ltb_irrefl in C. discriminate.
Qed.

Lemma str_ltb_total (s t : pystr) :
  str_ltb s t = false -> str_ltb t s = false -> s = t.
Proof.
  revert t. induction s as [|c s IH]; intros [|d t]; simpl; try congruence.
  destruct (N.ltb_spec c d), (N.ltb_spec d c), (N.eqb_spec c d), (N.eqb_spec d c);
    try congruence; try lia.
  intros H1 H2. f_equal; [assumption|]. now apply IH.
Qed.

(** ** Dictionaries *)

Section DictFacts.
Context {V : Type}.
Implicit Types (d : dict V) (k : pystr) (v : V).

Lemma dict_get_In k v d : dict_get k d = Some v -> In (k, v) d.
Proof.
  induction d as [|[k' v'] d IH]; simpl; [discriminate|].
  destruct (str_eqb k k') eqn:E.
  - apply str_eqb_eq in E. intros [= ->]. subst. now left.
  - intros H. right. now apply IH.
Qed.

Lemma dict_get_None k d : dict_get k d = None <-> ~ In k (keys d).
Proof.
  induction d as [|[k' v'] d IH]; simpl; [tauto|].
  destruct (str_eqb k k') eqn:E.
  - apply str_eqb_eq in E. subst. split; [discriminate|]. intros H. exfalso. auto.
  - apply str_eqb_neq in E. rewrite IH. split.
    + intros H [C|C]; [congruence|auto].
    + intros H C. auto.
Qed.

Lemma dict_get_Some_key k v d : dict_get k d = Some v -> In k (keys d).
Proof.
  intros H. apply dict_get_In in H. unfold keys.
  change k with (fst (k, v)). now apply in_map.
Qed.

Lemma In_dict_get k v d : NoDup (keys d) -> In (k, v) d -> dict_get k d = Some v.
Proof.
  induction d as [|[k' v'] d IH]; simpl; [tauto|].
  intros Hnd [H|H].
  - injection H as -> ->. now rewrite str_eqb_refl.
  - inversion Hnd as [|? ? Hk Hnd']; subst.
    destruct (str_eqb k k') eqn:E.
    + apply str_eqb_eq in E. subst. exfalso. apply Hk.
      change k' with (fst (k', v)). now apply in_map.
    + now apply IH.
Qed.

Lemma dict_get_set_same k v d : dict_get k (dict_set k v d) = Some v.
Proof.
  induction d as [|[k' v'] d IH]; simpl.
  - now rewrite str_eqb_refl.
  - destruct (str_eqb k k') eqn:E; simpl; rewrite E; [reflexivity|exact IH].
Qed.

Lemma dict_get_set_other k k' v d :
  k <> k' -> dict_get k (dict_set k' v d) = dict_get k d.
Proof.
  intros Hne. induction d as [|[k2 v2] d IH]; simpl.
  - apply str_eqb_neq in Hne. now rewrite Hne.
  - destruct (str_eqb k' k2) eqn:E; simpl.
    + apply str_eqb_eq in E. subst k2.
      apply str_eqb_neq in Hne. now rewrite Hne.
    + now rewrite IH.
Qed.

Lemma keys_set_present k v d : In k (keys d) -> keys (dict_set k v d) = keys d.
Proof.
  induction d as [|[k' v'] d IH]; simpl; [tauto|].
  intros H. destruct (str_eqb k k') eqn:E; simpl; [reflexivity|].
  f_equal. apply IH. destruct H as [H|H]; [|assumption].
  apply str_eqb_neq in E. congruence.
Qed.

Lemma dict_set_absent k v d : ~ In k (keys d) -> dict_set k v d = d ++ [(k, v)].
Proof.
  induction d as [|[k' v'] d IH]; simpl; [reflexivity|].
  intros H. destruct (str_eqb k k') eqn:E.
  - apply str_eqb_eq in E. subst. exfalso. auto.
  - f_equal. apply IH. auto.
Qed.
End DictFacts.

(** ** Records behind the rows *)

Lemma keys_add_record acc rec :
  keys (add_record acc rec) =
  if in_dec str_eq_dec (fst rec) (keys acc) then keys acc
  else keys acc ++ [fst rec].
Proof.
  unfold add_record. destruct (in_dec str_eq_dec (fst rec) (keys acc)) as [H|H].
  - now apply keys_set_present.
  - rewrite dict_set_absent by assumption. unfold keys. now rewrite map_app.
Qed.

Lemma scores_in_add_record name acc rec :
  scores_in name (add_record acc rec) =
  scores_in name acc ++ (if str_eqb name (fst rec) then [snd rec] else []).
Proof.
  unfold scores_in, add_record. destruct (str_eqb name (fst rec)) eqn:E.
  - apply str_eqb_eq in E. subst. now rewrite dict_get_set_same.
  - apply str_eqb_neq in E. rewrite dict_get_set_other by assumption.
    now rewrite app_nil_r.
Qed.

Lemma In_keys_group name recs acc :
  In name (keys (group_records recs acc)) <->
  In name (keys acc) \/ In name (names_of recs).
Proof.
  revert acc. induction recs as [|rec recs IH]; intros acc; simpl.
  - tauto.
  - unfold group_records in *. simpl. rewrite IH, keys_add_record.
    destruct (in_dec str_eq_dec (fst rec) (keys acc)) as [H|H].
    + split; [tauto|]. intros [?|[<-|?]]; tauto.
    + rewrite in_app_iff. simpl. tauto.
Qed.

Lemma NoDup_keys_group recs acc :
  NoDup (keys acc) -> NoDup (keys (group_records recs acc)).
Proof.
  revert acc. induction recs as [|rec recs IH]; intros acc Hnd; simpl.
  - exact Hnd.
  - apply IH. rewrite keys_add_record.
    destruct (in_dec str_eq_dec (fst rec) (keys acc)) as [H|H]; [assumption|].
    apply NoDup_app; repeat split; auto.
    + constructor; [intros []|constructor].
    + intros x Hx [<-|[]]. contradiction.
Qed.

Lemma scores_in_group name recs acc :
  scores_in name (group_records recs acc) = scores_in name acc ++ scores_of name recs.
Proof.
  revert acc. induction recs as [|rec recs IH]; intros acc; simpl.
  - now rewrite app_nil_r.
  - unfold group_records in *. simpl. rewrite IH, scores_in_add_record.
    rewrite <- app_assoc. f_equal. unfold scores_of. simpl.
    now destruct (str_eqb name (fst rec)).
Qed.

Lemma scores_of_nonempty name recs :
  In name (names_of recs) -> scores_of name recs <> [].
Proof.
  induction recs as [|rec recs IH]; simpl; [tauto|].
  unfold scores_of. simpl. intros [H|H].
  - subst. rewrite str_eqb_refl. discriminate.
  - destruct (str_eqb name (fst rec)); [discriminate|now apply IH].
Qed.

(** The groups built from an empty dictionary: one entry per distinct name,
    holding that participant's scores. *)
Lemma group_records_entries recs name scores :
  In (name, scores) (group_records recs []) ->
  In name (names_of recs) /\ scores = scores_of name recs.
Proof.
  intros H.
  assert (Hk : In name (keys (group_records recs []))).
  { unfold keys. change name with (fst (name, scores)). now apply in_map. }
  apply In_keys_group in Hk. destruct Hk as [[]|Hk]. split; [assumption|].
  apply In_dict_get in H; [|apply NoDup_keys_group; constructor].
  pose proof (scores_in_group name recs []) as S.
  unfold scores_in in S at 1. rewrite H in S. exact S.
Qed.

(** ** Reductions over integers *)

Lemma max_fold_spec (xs : list Z) (x : Z) :
  let m := fold_left (fun m y => if m <? y then y else m) xs x in
  In m (x :: xs) /\ Forall (fun y => y <= m) (x :: xs).
Proof.
  revert x. induction xs as [|y xs IH]; intros x; simpl.
  - split; [now left|]. constructor; [lia|constructor].
  - destruct (IH (if x <? y then y else x)) as [Hin Hall].
    inversion Hall as [|? ? Hhd Htl]; subst. split.
    + destruct Hin as [Hin|Hin]; [|auto].
      rewrite <- Hin. destruct (x <? y); auto.
    + destruct (Z.ltb_spec x y); repeat constructor; try assumption; lia.
Qed.

Lemma min_fold_spec (xs : list Z) (x : Z) :
  let m := fold_left (fun m y => if y <? m then y else m) xs x in
  In m (x :: xs) /\ Forall (fun y => m <= y) (x :: xs).
Proof.
  revert x. induction xs as [|y xs IH]; intros x; simpl.
  - split; [now left|]. constructor; [lia|constructor].
  - destruct (IH (if y <? x then y else x)) as [Hin Hall].
    inversion Hall as [|? ? Hhd Htl]; subst. split.
    + destruct Hin as [Hin|Hin]; [|auto].
      rewrite <- Hin. destruct (y <? x); auto.
    + destruct (Z.ltb_spec y x); repeat constructor; try assumption; lia.
Qed.

Lemma py_max_spec (l : list Z) (m : Z) : py_max Z.ltb l = Ok m -> is_max m l.
Proof.
  destruct l as [|x xs]; simpl; [discriminate|].
  intros [= <-]. apply max_fold_spec.
Qed.

Lemma py_min_spec (l : list Z) (m : Z) : py_min Z.ltb l = Ok m -> is_min m l.
Proof.
  destruct l as [|x xs]; simpl; [discriminate|].
  intros [= <-]. apply min_fold_spec.
Qed.

Lemma is_max_unique (l : list Z) (m m' : Z) : is_max m l -> is_max m' l -> m = m'.
Proof.
  intros [I1 A1] [I2 A2]. rewrite Forall_forall in A1, A2.
  apply A2 in I1. apply A1 in I2. lia.
Qed.

Lemma is_min_unique (l : list Z) (m m' : Z) : is_min m l -> is_min m' l -> m = m'.
Proof.
  intros [I1 A1] [I2 A2]. rewrite Forall_forall in A1, A2.
  apply A2 in I1. apply A1 in I2. lia.
Qed.

Lemma is_max_perm (l l' : list Z) (m : Z) : Permutation l l' -> is_max m l -> is_max m l'.
Proof.
  intros P [I A]. split.
  - eapply Permutation_in; eassumption.
  - eapply Permutation_Forall; eassumption.
Qed.

Lemma is_min_perm (l l' : list Z) (m : Z) : Permutation l l' -> is_min m l -> is_min m l'.
Proof.
  intros P [I A]. split.
  - eapply Permutation_in; eassumption.
  - eapply Permutation_Forall; eassumption.
Qed.

Lemma sum_from (l : list Z) (z : Z) : fold_left Z.add l z = z + sum l.
Proof.
  unfold sum. revert z. induction l as [|x l IH]; intros z; simpl; [lia|].
  rewrite IH, (IH x). lia.
Qed.

Lemma sum_cons (x : Z) (l : list Z) : sum (x :: l) = x + sum l.
Proof. unfold sum at 1. simpl. apply sum_from. Qed.

Lemma sum_perm (l l' : list Z) : Permutation l l' -> sum l = sum l'.
Proof.
  induction 1 as [| x l l' _ IH | x y l | l l' l'' _ IH1 _ IH2].
  - reflexivity.
  - rewrite !sum_cons. lia.
  - rewrite !sum_cons. lia.
  - congruence.
Qed.

Lemma sum_bounds (l : list Z) (lo hi : Z) :
  Forall (fun x => lo <= x <= hi) l ->
  lo * Z.of_nat (List.length l) <= sum l <= hi * Z.of_nat (List.length l).
Proof.
  induction 1 as [|x l Hx _ IH].
  - unfold sum. simpl. lia.
  - rewrite sum_cons. cbn [List.length]. lia.
Qed.

(** ** Statistics of one participant *)

Lemma person_stats_spec (scores : list Z) (st : stats) :
  person_stats scores = Ok st ->
  int_truediv (sum scores) (Z.of_nat (List.length scores)) = Ok (average st) /\
  is_max (max_score st) scores /\ is_min (min_score st) scores.
Proof.
  unfold person_stats.
  destruct (int_truediv _ _) as [avg|e]; simpl; [|discriminate].
  destruct (py_max Z.ltb scores) as [mx|e] eqn:Hmx; simpl; [|discriminate].
  destruct (py_min Z.ltb scores) as [mn|e] eqn:Hmn; simpl; [|discriminate].
  intros [= <-]. simpl. auto using py_max_spec, py_min_spec.
Qed.

Lemma int_truediv_error (a b : Z) (e : exn) :
  0 < b -> int_truediv a b = Err e -> e = OverflowError.
Proof.
  intros Hb. unfold int_truediv, div_pos.
  destruct a; destruct b; try lia; try discriminate;
    match goal with
    | |- context [if ?c then (2 ^ 52, _) else _] => destruct c
    end;
    match goal with
    | |- context [match ?m with 0 => _ | Z.pos _ => _ | Z.neg _ => _ end] =>
        destruct m; try discriminate
    end;
    match goal with
    | |- context [if ?c then Err _ else _] => destruct c
    end; congruence.
Qed.

(** On a non-empty list only the division can fail, and only by overflow. *)
Lemma person_stats_error (scores : list Z) (e : exn) :
  scores <> [] -> person_stats scores = Err e ->
  e = OverflowError /\
  int_truediv (sum scores) (Z.of_nat (List.length scores)) = Err OverflowError.
Proof.
  intros Hne. unfold person_stats.
  destruct (int_truediv _ _) as [avg|e'] eqn:Hdiv; simpl.
  - destruct scores as [|x xs]; [congruence|]. simpl. discriminate.
  - intros [= <-]. apply int_truediv_error in Hdiv as ->; [auto|].
    destruct scores; [congruence|]. cbn [List.length]. lia.
Qed.

Lemma person_stats_perm (l l' : list Z) :
  Permutation l l' -> person_stats l = person_stats l'.
Proof.
  intros P. unfold person_stats.
  rewrite (sum_perm _ _ P), (Permutation_length P).
  destruct (int_truediv _ _) as [avg|e]; simpl; [|reflexivity].
  destruct l as [|x xs].
  - apply Permutation_nil in P. now subst.
  - destruct l' as [|x' xs']; [symmetry in P; now apply Permutation_nil in P|].
    destruct (py_max Z.ltb (x :: xs)) as [mx|] eqn:H1; [|discriminate].
    destruct (py_max Z.ltb (x' :: xs')) as [mx'|] eqn:H2; [|discriminate].
    destruct (py_min Z.ltb (x :: xs)) as [mn|] eqn:H3; [|discriminate].
    destruct (py_min Z.ltb (x' :: xs')) as [mn'|] eqn:H4; [|discriminate].
    apply py_max_spec in H1, H2. apply py_min_spec in H3, H4.
    rewrite (is_max_unique _ _ _ (is_max_perm _ _ _ P H1) H2).
    rewrite (is_min_unique _ _ _ (is_min_perm _ _ _ P H3) H4).
    reflexivity.
Qed.

(** ** The second loop *)

Lemma summarize_each_stats (groups : list (pystr * list Z)) (statistics : dict stats) :
  NoDup (keys statistics ++ keys groups) ->
  summarize groups statistics =
  (rest <- each_stats groups ;; Ok (statistics ++ rest)).
Proof.
  revert statistics. induction groups as [|[name scores] groups IH];
    intros statistics Hnd; simpl.
  - now rewrite app_nil_r.
  - destruct (person_stats scores) as [st|e]; simpl; [|reflexivity].
    assert (Hfresh : ~ In name (keys statistics)).
    { intros Hin. apply NoDup_remove_2 in Hnd. apply Hnd.
      apply in_or_app. now left. }
    rewrite dict_set_absent by assumption. rewrite IH.
    + destruct (each_stats groups) as [rest|e]; simpl; [|reflexivity].
      now rewrite <- app_assoc.
    + unfold keys in *. rewrite map_app. simpl. rewrite <- app_assoc. exact Hnd.
Qed.

Lemma each_stats_ok (groups : list (pystr * list Z)) (sts : dict stats) :
  each_stats groups = Ok sts ->
  Forall2 (fun g s => fst s = fst g /\ person_stats (snd g) = Ok (snd s)) groups sts.
Proof.
  revert sts. induction groups as [|[name scores] groups IH]; intros sts; simpl.
  - intros [= <-]. constructor.
  - destruct (person_stats scores) as [st|e] eqn:Hst; simpl; [|discriminate].
    destruct (each_stats groups) as [rest|e]; simpl; [|discriminate].
    intros [= <-]. constructor; auto.
Qed.

Lemma each_stats_err (groups : list (pystr * list Z)) (e : exn) :
  each_stats groups = Err e ->
  exists name scores, In (name, scores) groups /\ person_stats scores = Err e.
Proof.
  induction groups as [|[name scores] groups IH]; simpl; [discriminate|].
  destruct (person_stats scores) as [st|e'] eqn:Hst; simpl.
  - destruct (each_stats groups) as [rest|e']; simpl; [discriminate|].
    intros [= <-]. destruct IH as (n & s & Hin & Hs); [reflexivity|].
    exists n, s. auto.
  - intros [= <-]. exists name, scores. auto.
Qed.

Lemma Forall2_keys (groups : list (pystr * list Z)) (sts : dict stats) P :
  Forall2 (fun g s => fst s = fst g /\ P g s) groups sts -> keys sts = keys groups.
Proof.
  induction 1 as [|g s groups sts [H _] _ IH]; simpl; [reflexivity|].
  now rewrite H, IH.
Qed.

Lemma Forall2_entry (groups : list (pystr * list Z)) (sts : dict stats) name st :
  Forall2 (fun g s => fst s = fst g /\ person_stats (snd g) = Ok (snd s)) groups sts ->
  In (name, st) sts ->
  exists scores, In (name, scores) groups /\ person_stats scores = Ok st.
Proof.
  induction 1 as [|[n sc] [n' s'] groups sts [Hk Hs] _ IH]; simpl; [tauto|].
  simpl in Hk, Hs. subst n'. intros [[= -> ->]|Hin].
  - exists sc. auto.
  - destruct (IH Hin) as (scores & H1 & H2). exists scores. auto.
Qed.

(** ** The first loop *)

Section Aggregation.
Variable py_int : pystr -> option Z.

Lemma add_row_record acc r rec :
  is_record py_int r rec -> add_row py_int acc r = Ok (add_record acc rec).
Proof.
  intros [Hn (text & Ht & Hp)]. unfold add_row, dict_lookup, parse_int.
  rewrite Hn, Ht. simpl. rewrite Hp. reflexivity.
Qed.

Lemma add_row_ok acc r acc' :
  add_row py_int acc r = Ok acc' ->
  exists rec, is_record py_int r rec /\ acc' = add_record acc rec.
Proof.
  unfold add_row, dict_lookup, parse_int.
  destruct (dict_get key_name r) as [name|] eqn:Hn; simpl; [|discriminate].
  destruct (dict_get key_score r) as [text|] eqn:Ht; simpl; [|discriminate].
  destruct (py_int text) as [score|] eqn:Hp; simpl; [|discriminate].
  intros [= <-]. exists (name, score). split; [|reflexivity].
  split; [assumption|]. exists text. auto.
Qed.

Lemma group_scores_records data recs acc :
  Forall2 (is_record py_int) data recs ->
  group_scores py_int data acc = Ok (group_records recs acc).
Proof.
  intros H. revert acc. induction H as [|r rec data recs Hr _ IH]; intros acc; simpl.
  - reflexivity.
  - rewrite (add_row_record _ _ _ Hr). simpl. apply IH.
Qed.

Lemma group_scores_ok data acc groups :
  group_scores py_int data acc = Ok groups ->
  exists recs, Forall2 (is_record py_int) data recs /\ groups = group_records recs acc.
Proof.
  revert acc. induction data as [|r data IH]; intros acc; simpl.
  - intros [= <-]. exists []. split; [constructor|reflexivity].
  - destruct (add_row py_int acc r) as [acc'|e] eqn:Hr; simpl; [|discriminate].
    intros H. apply add_row_ok in Hr as (rec & Hrec & ->).
    apply IH in H as (recs & Hrecs & ->).
    exists (rec :: recs). split; [now constructor|reflexivity].
Qed.

(** The aggregator on rows that read as [recs]. *)
Lemma calculate_statistics_records data recs :
  Forall2 (is_record py_int) data recs ->
  calculate_statistics py_int data = each_stats (group_records recs []).
Proof.
  intros H. unfold calculate_statistics.
  rewrite (group_scores_records _ _ _ H). simpl.
  rewrite summarize_each_stats.
  - destruct (each_stats _); reflexivity.
  - simpl. apply NoDup_keys_group. constructor.
Qed.

Lemma calculate_statistics_ok data statistics :
  calculate_statistics py_int data = Ok statistics ->
  exists recs, Forall2 (is_record py_int) data recs /\
               each_stats (group_records recs []) = Ok statistics.
Proof.
  intros H. unfold calculate_statistics in H.
  destruct (group_scores py_int data []) as [groups|e] eqn:Hg; simpl in H;
    [|discriminate].
  apply group_scores_ok in Hg as (recs & Hrecs & ->).
  exists recs. split; [assumption|].
  rewrite <- H. symmetry. rewrite <- (calculate_statistics_records _ _ Hrecs).
  unfold calculate_statistics. rewrite (group_scores_records _ _ _ Hrecs).
  reflexivity.
Qed.
End Aggregation.

(** ** Aggregator: grouping and per-participant statistics *)

(** C1 (as amended). For rows that read as the records [recs], the
    aggregator returns a mapping with exactly one entry per distinct
    participant name, whose average is the (floating-point) quotient of the
    sum of that participant's scores by their count, whose max is the largest
    and whose min is the smallest of those scores; the only way it can fail
    is that such a quotient lies beyond the range of a float, and then it
    raises [OverflowError]. *)
Theorem aggregator_statistics (py_int : pystr -> option Z)
        (data : list row) (recs : list record) :
  Forall2 (is_record py_int) data recs ->
  match calculate_statistics py_int data with
  | Ok statistics =>
      NoDup (keys statistics) /\
      (forall name, In name (keys statistics) <-> In name (names_of recs)) /\
      (forall name st, dict_get name statistics = Some st ->
         mean_of name recs = Ok (average st) /\
         is_max (max_score st) (scores_of name recs) /\
         is_min (min_score st) (scores_of name recs))
  | Err e =>
      e = OverflowError /\
      exists name, In name (names_of recs) /\ mean_of name recs = Err OverflowError
  end.
Proof.
  intros Hrecs. rewrite (calculate_statistics_records _ _ _ Hrecs).
  destruct (each_stats (group_records recs [])) as [statistics|e] eqn:Hs.
  - apply each_stats_ok in Hs.
    assert (Hkeys : keys statistics = keys (group_records recs [])).
    { eapply Forall2_keys. exact Hs. }
    split; [|split].
    + rewrite Hkeys. apply NoDup_keys_group. constructor.
    + intros name. rewrite Hkeys, In_keys_group. simpl. tauto.
    + intros name st Hget. apply dict_get_In in Hget.
      destruct (Forall2_entry _ _ _ _ Hs Hget) as (scores & Hin & Hst).
      apply group_records_entries in Hin as [_ ->].
      apply person_stats_spec in Hst. exact Hst.
  - apply each_stats_err in Hs as (name & scores & Hin & Hst).
    apply group_records_entries in Hin as [Hname ->].
    apply person_stats_error in Hst as [-> Hdiv];
      [|now apply scores_of_nonempty].
    split; [reflexivity|]. exists name. auto.
Qed.

Lemma aggregator_statistics_witness :
  match calculate_statistics ascii_int scenario_rows with
  | Ok statistics =>
      NoDup (keys statistics) /\
      (forall name, In name (keys statistics) <-> In name (names_of scenario_records)) /\
      (forall name st, dict_get name statistics = Some st ->
         mean_of name scenario_records = Ok (average st) /\
         is_max (max_score st) (scores_of name scenario_records) /\
         is_min (min_score st) (scores_of name scenario_records))
  | Err e =>
      e = OverflowError /\
      exists name, In name (names_of scenario_records) /\
                   mean_of name scenario_records = Err OverflowError
  end.
Proof.
  apply (aggregator_statistics ascii_int scenario_rows scenario_records).
  repeat constructor; simpl; eexists; split; reflexivity.
Defined.

(** C1, as stated, fails: a single record whose score is 2^1024 makes the
    aggregator raise [OverflowError] instead of returning statistics. *)
Lemma aggregator_overflow_counterexample :
  Forall2 (is_record ascii_int)
          [record_row (lit "A") (str_of_int (2 ^ 1024))] [(lit "A", 2 ^ 1024)] /\
  calculate_statistics ascii_int [record_row (lit "A") (str_of_int (2 ^ 1024))]
  = Err OverflowError.
Proof.
  split.
  - repeat constructor; simpl. eexists. split; [reflexivity|].
    vm_compute. reflexivity.
  - vm_compute. reflexivity.
Qed.

(** ** Order independence of the aggregation *)

Lemma filter_perm {A : Type} (f : A -> bool) (l l' : list A) :
  Permutation l l' -> Permutation (filter f l) (filter f l').
Proof.
  induction 1 as [| x l l' _ IH | x y l | l l' l'' _ IH1 _ IH2]; simpl.
  - constructor.
  - destruct (f x); [now constructor|assumption].
  - destruct (f x), (f y); try reflexivity. constructor.
  - etransitivity; eassumption.
Qed.

Lemma scores_of_perm name (recs recs' : list record) :
  Permutation recs recs' -> Permutation (scores_of name recs) (scores_of name recs').
Proof.
  intros P. unfold scores_of. apply Permutation_map. now apply filter_perm.
Qed.

Lemma dict_get_perm {V : Type} (d d' : dict V) (k : pystr) :
  NoDup (keys d) -> Permutation d d' -> dict_get k d = dict_get k d'.
Proof.
  intros Hnd P.
  assert (Hnd' : NoDup (keys d')).
  { eapply Permutation_NoDup; [|exact Hnd]. now apply Permutation_map. }
  destruct (dict_get k d) as [v|] eqn:E.
  - symmetry. apply In_dict_get; [assumption|].
    eapply Permutation_in; [exact P|]. now apply dict_get_In.
  - symmetry. apply dict_get_None. apply dict_get_None in E.
    intros Hin. apply E. eapply Permutation_in; [|exact Hin].
    apply Permutation_map. now symmetry.
Qed.

Lemma In_group_records name recs :
  In name (names_of recs) -> In (name, scores_of name recs) (group_records recs []).
Proof.
  intros H.
  assert (Hk : In name (keys (group_records recs []))).
  { apply In_keys_group. now right. }
  unfold keys in Hk. apply in_map_iff in Hk as ([n scores] & Hn & Hin).
  simpl in Hn. subst n.
  destruct (group_records_entries _ _ _ Hin) as [_ ->]. exact Hin.
Qed.

(** If every group has its statistics among [pool], the second loop
    succeeds with entries drawn from [pool]. *)
Lemma each_stats_from_pool (groups : list (pystr * list Z)) (pool : dict stats) :
  (forall name scores, In (name, scores) groups ->
     exists st, In (name, st) pool /\ person_stats scores = Ok st) ->
  exists sts, each_stats groups = Ok sts /\ incl sts pool /\ keys sts = keys groups.
Proof.
  induction groups as [|[name scores] groups IH]; intros H; simpl.
  - exists []. split; [reflexivity|]. split; [intros ? []|reflexivity].
  - destruct (H name scores) as (st & Hin & Hst); [now left|].
    destruct IH as (sts & Hsts & Hincl & Hkeys).
    { intros n s Hn. apply H. now right. }
    exists ((name, st) :: sts). rewrite Hst, Hsts. simpl.
    split; [reflexivity|]. split.
    + intros x [<-|Hx]; auto.
    + now rewrite Hkeys.
Qed.

Lemma each_stats_perm (recs recs' : list record) (sts : dict stats) :
  Permutation recs recs' ->
  each_stats (group_records recs []) = Ok sts ->
  exists sts', each_stats (group_records recs' []) = Ok sts' /\ Permutation sts sts'.
Proof.
  intros P Hs. pose proof (each_stats_ok _ _ Hs) as HF.
  assert (Hkeys : keys sts = keys (group_records recs [])).
  { eapply Forall2_keys. exact HF. }
  assert (Hnd : NoDup (keys (group_records recs []))).
  { apply NoDup_keys_group. constructor. }
  assert (Hnd' : NoDup (keys (group_records recs' []))).
  { apply NoDup_keys_group. constructor. }
  assert (Hnames : forall name, In name (names_of recs') -> In name (names_of recs)).
  { intros name Hn. eapply Permutation_in; [|exact Hn].
    apply Permutation_map. now symmetry. }
  destruct (each_stats_from_pool (group_records recs' []) sts) as (sts' & Hs' & Hincl & Hk').
  { intros name scores Hin.
    apply group_records_entries in Hin as [Hn ->].
    pose proof (In_group_records _ _ (Hnames _ Hn)) as Hg.
    assert (Hst : exists st, In (name, st) sts).
    { assert (Hk : In name (keys sts)).
      { rewrite Hkeys. apply In_keys_group. right. auto. }
      unfold keys in Hk. apply in_map_iff in Hk as ([n st] & Hfst & Hin).
      simpl in Hfst. subst n. now exists st. }
    destruct Hst as (st & Hst). exists st. split; [assumption|].
    destruct (Forall2_entry _ _ _ _ HF Hst) as (scores & Hin & Hps).
    apply group_records_entries in Hin as [_ ->].
    rewrite <- Hps. apply person_stats_perm. apply scores_of_perm. now symmetry. }
  exists sts'. split; [assumption|].
  symmetry. apply NoDup_Permutation_bis.
  - apply (NoDup_map_inv fst). fold (keys sts'). now rewrite Hk'.
  - assert (Hlen : Permutation (keys (group_records recs [])) (keys (group_records recs' []))).
    { apply NoDup_Permutation; try assumption.
      intros name. rewrite !In_keys_group. simpl. split; intros [[]|H]; right.
      - eapply Permutation_in; [|exact H]. now apply Permutation_map.
      - auto. }
    apply Permutation_length in Hlen.
    rewrite <- Hkeys, <- Hk' in Hlen. unfold keys in Hlen.
    rewrite !length_map in Hlen. lia.
  - exact Hincl.
Qed.

(** C5. Aggregating a permutation of the input yields the same mapping: the
    same participants, each with the same average, max and min. *)
Theorem aggregation_order_independent (py_int : pystr -> option Z)
        (data data' : list row) (statistics : dict stats) :
  Permutation data data' ->
  calculate_statistics py_int data = Ok statistics ->
  exists statistics',
    calculate_statistics py_int data' = Ok statistics' /\
    Permutation statistics statistics' /\
    forall name, dict_get name statistics' = dict_get name statistics.
Proof.
  intros P H.
  apply calculate_statistics_ok in H as (recs & Hrecs & Hs).
  destruct (Permutation_Forall2 P Hrecs) as (recs' & Precs & Hrecs').
  destruct (each_stats_perm _ _ _ Precs Hs) as (sts' & Hs' & Psts).
  exists sts'. rewrite (calculate_statistics_records _ _ _ Hrecs').
  split; [assumption|]. split; [assumption|].
  intros name. symmetry. apply dict_get_perm; [|assumption].
  erewrite Forall2_keys by (apply each_stats_ok; exact Hs).
  apply NoDup_keys_group. constructor.
Qed.

Lemma aggregation_order_independent_witness :
  exists statistics',
    calculate_statistics ascii_int scenario_rows_reordered = Ok statistics' /\
    Permutation scenario_statistics statistics' /\
    forall name, dict_get name statistics' = dict_get name scenario_statistics.
Proof.
  apply (aggregation_order_independent ascii_int scenario_rows).
  - unfold scenario_rows, scenario_rows_reordered.
    eapply perm_trans; [apply perm_swap|]. apply perm_skip. apply perm_swap.
  - reflexivity.
Defined.

(** ** Rounded division between integer bounds *)

Lemma round_half_even_lower (num den k : Z) :
  0 < den -> k * den <= num -> k <= round_half_even num den.
Proof.
  intros Hd Hk. unfold round_half_even.
  pose proof (Z.div_mod num den ltac:(lia)) as E.
  pose proof (Z.mod_pos_bound num den Hd) as B.
  assert (k <= num / den) by nia.
  destruct (2 * (num mod den) ?= den); [destruct (Z.even _)| |]; lia.
Qed.

Lemma round_half_even_upper (num den k : Z) :
  0 < den -> num <= k * den -> round_half_even num den <= k.
Proof.
  intros Hd Hk. unfold round_half_even.
  pose proof (Z.div_mod num den ltac:(lia)) as E.
  pose proof (Z.mod_pos_bound num den Hd) as B.
  assert (num / den <= k) by nia.
  destruct (Z.compare_spec (2 * (num mod den)) den) as [C|C|C].
  - destruct (Z.even _); [lia|]. assert (num / den <> k) by nia. lia.
  - lia.
  - assert (num / den <> k) by nia. lia.
Qed.

Lemma quot_log2_lower (a b : Z) :
  0 < a -> 0 < b -> 0 <= quot_log2 a b -> b * 2 ^ quot_log2 a b <= a.
Proof.
  intros Ha Hb. unfold quot_log2.
  pose proof (Z.log2_spec a Ha) as [La _].
  pose proof (Z.log2_spec b Hb) as [_ Lb].
  pose proof (Z.log2_nonneg a). pose proof (Z.log2_nonneg b).
  set (la := Z.log2 a) in *. set (lb := Z.log2 b) in *.
  destruct (Z.leb_spec 0 (la - lb)) as [Hk|Hk].
  - destruct (Z.leb_spec (b * 2 ^ (la - lb)) a) as [Hge|Hge]; [lia|].
    intros Hq.
    assert (E : 2 ^ la = 2 ^ Z.succ lb * 2 ^ (la - lb - 1)).
    { rewrite <- Z.pow_add_r by lia. f_equal. lia. }
    assert (0 < 2 ^ (la - lb - 1)) by (apply Z.pow_pos_nonneg; lia).
    nia.
  - destruct (b <=? a * 2 ^ (- (la - lb))); lia.
Qed.

Lemma dyadic_between (m e lo hi : Z) :
  e <= 0 -> lo * 2 ^ (- e) <= m <= hi * 2 ^ (- e) ->
  (inject_Z lo <= dyadic m e /\ dyadic m e <= inject_Z hi)%Q.
Proof.
  intros He Hm. unfold dyadic.
  destruct (Z.leb_spec 0 e) as [H0|H0].
  - assert (e = 0) by lia. subst e. simpl in Hm. rewrite Z.pow_0_r.
    rewrite <- !Zle_Qle. lia.
  - assert (Hp : 0 < 2 ^ (- e)) by (apply Z.pow_pos_nonneg; lia).
    unfold Qle. simpl. rewrite Z2Pos.id by assumption. lia.
Qed.

Lemma round_half_even_nonneg (num den : Z) :
  0 < den -> 0 <= num -> 0 <= round_half_even num den.
Proof. intros. apply round_half_even_lower; lia. Qed.

Lemma div_pos_between (a b lo hi : Z) :
  0 < a -> 0 < b -> lo * b <= a <= hi * b -> hi <= 2 ^ 53 ->
  exists f, div_pos false a b = Ok f /\
            (inject_Z lo <= F2Q f /\ F2Q f <= inject_Z hi)%Q.
Proof.
  intros Ha Hb [Hlo Hhi] Hmax. unfold div_pos.
  pose proof (quot_log2_lower a b Ha Hb) as Hq.
  unfold quot_exp, emin. set (ql := quot_log2 a b) in *.
  destruct (Z_le_gt_dec (Z.max (ql - 52) (-1074)) 0) as [He|He].
  - set (e := Z.max (ql - 52) (-1074)) in *.
    set (m := if 0 <=? e then round_half_even a (b * 2 ^ e)
              else round_half_even (a * 2 ^ (- e)) b).
    assert (Hp : 0 < 2 ^ (- e)) by (apply Z.pow_pos_nonneg; lia).
    assert (Hm : lo * 2 ^ (- e) <= m <= hi * 2 ^ (- e) /\ 0 <= m).
    { unfold m. destruct (Z.leb_spec 0 e) as [H0|H0].
      - assert (E0 : e = 0) by lia. rewrite E0.
        change (2 ^ (- 0)) with 1. change (2 ^ 0) with 1.
        rewrite !Z.mul_1_r. repeat split.
        + apply round_half_even_lower; lia.
        + apply round_half_even_upper; lia.
        + apply round_half_even_nonneg; lia.
      - repeat split.
        + apply round_half_even_lower; nia.
        + apply round_half_even_upper; nia.
        + apply round_half_even_nonneg; nia. }
    destruct Hm as [Hm Hm0].
    destruct (Z.eqb_spec m (2 ^ 53)) as [E|E].
    + change (2 ^ 52) with 4503599627370496.
      destruct (Z.ltb_spec emax (e + 1)) as [Ho|Ho]; [unfold emax in Ho; lia|].
      eexists. split; [reflexivity|]. simpl F2Q.
      destruct (Z.eq_dec e 0) as [E0|E0].
      * rewrite E0 in *. simpl in Hm. unfold dyadic. simpl.
        change (2 ^ 53) with 9007199254740992 in *.
        rewrite <- !Zle_Qle. lia.
      * apply dyadic_between; [lia|].
        assert (E2 : 2 ^ (- e) = 2 * 2 ^ (- (e + 1))).
        { rewrite <- Z.pow_succ_r by lia. f_equal. lia. }
        assert (0 < 2 ^ (- (e + 1))) by (apply Z.pow_pos_nonneg; lia).
        change (2 ^ 53) with 9007199254740992 in *. simpl signed. nia.
    + destruct m as [|p|p] eqn:Em.
      * eexists. split; [reflexivity|]. simpl.
        change 0%Q with (inject_Z 0). rewrite <- !Zle_Qle. nia.
      * destruct (Z.ltb_spec emax e) as [Ho|Ho]; [unfold emax in Ho; lia|].
        eexists. split; [reflexivity|]. simpl F2Q. simpl signed.
        now apply dyadic_between.
      * lia.
  - assert (Hql : 53 <= ql) by lia. specialize (Hq ltac:(lia)).
    assert (H53 : 2 ^ 53 <= 2 ^ ql) by (apply Z.pow_le_mono_r; lia).
    assert (Ea : a = 2 ^ 53 * b) by nia.
    assert (Eh : hi = 2 ^ 53) by nia.
    assert (Eq : ql = 53).
    { destruct (Z.eq_dec ql 53); [assumption|].
      assert (2 ^ 54 <= 2 ^ ql) by (apply Z.pow_le_mono_r; lia).
      change (2 ^ 54) with (2 * 2 ^ 53) in *. nia. }
    rewrite Eq. change (Z.max (53 - 52) (-1074)) with 1.
    change (0 <=? 1) with true. cbv iota.
    assert (Er : round_half_even a (b * 2 ^ 1) = 2 ^ 52).
    { unfold round_half_even. subst a.
      replace (2 ^ 53 * b) with (2 ^ 52 * (b * 2 ^ 1)) by (change (2 ^ 53) with (2 ^ 52 * 2 ^ 1); ring).
      rewrite Z.div_mul, Z.mod_mul by lia.
      destruct (Z.compare_spec (2 * 0) (b * 2 ^ 1)); simpl in *; lia. }
    rewrite Er. change (2 ^ 52 =? 2 ^ 53) with false. cbv iota.
    change (2 ^ 52) with 4503599627370496.
    change (emax <? 1) with false. cbv iota.
    eexists. split; [reflexivity|]. simpl F2Q. unfold dyadic. simpl.
    subst hi. change (2 ^ 53) with 9007199254740992 in *.
    rewrite <- !Zle_Qle. nia.
Qed.

Lemma dyadic_opp (m e : Z) : (dyadic (- m) e == - dyadic m e)%Q.
Proof.
  unfold dyadic. destruct (0 <=? e).
  - rewrite Z.mul_opp_l, inject_Z_opp. reflexivity.
  - reflexivity.
Qed.

Lemma F2Q_fopp (f : float) : (F2Q (fopp f) == - F2Q f)%Q.
Proof.
  destruct f as [s|s m e]; simpl; [reflexivity|].
  rewrite <- dyadic_opp. now destruct s.
Qed.

Lemma div_pos_true (a b : Z) :
  div_pos true a b =
  match div_pos false a b with Ok f => Ok (fopp f) | Err e => Err e end.
Proof.
  unfold div_pos.
  destruct (_ =? 2 ^ 53).
  - change (2 ^ 52) with 4503599627370496. destruct (emax <? _); reflexivity.
  - destruct (if 0 <=? quot_exp a b then _ else _); try reflexivity.
    destruct (emax <? _); reflexivity.
Qed.

Lemma int_le_float_iff (z : Z) (f : float) :
  int_le_float z f = true <-> (inject_Z z <= F2Q f)%Q.
Proof.
  unfold int_le_float. rewrite Qle_alt.
  destruct (inject_Z z ?= F2Q f)%Q; split; congruence.
Qed.

Lemma float_le_int_iff (f : float) (z : Z) :
  float_le_int f z = true <-> (F2Q f <= inject_Z z)%Q.
Proof.
  unfold float_le_int. rewrite Qle_alt.
  destruct (F2Q f ?= inject_Z z)%Q; split; congruence.
Qed.

(** The quotient of [a] by [b] stays between integer bounds of the exact
    quotient, as long as the bounds are at most 2^53 in magnitude. *)
Lemma int_truediv_between (a b lo hi : Z) :
  0 < b -> lo * b <= a <= hi * b -> - 2 ^ 53 <= lo -> hi <= 2 ^ 53 ->
  exists f, int_truediv a b = Ok f /\
            int_le_float lo f = true /\ float_le_int f hi = true.
Proof.
  intros Hb Hab Hlo Hhi. setoid_rewrite int_le_float_iff.
  setoid_rewrite float_le_int_iff.
  unfold int_truediv. destruct b as [|b|b]; try lia.
  destruct a as [|a|a].
  - eexists. split; [reflexivity|]. simpl.
    change 0%Q with (inject_Z 0). rewrite <- !Zle_Qle. nia.
  - simpl. apply div_pos_between; lia.
  - simpl. rewrite div_pos_true.
    destruct (div_pos_between (Z.pos a) (Z.pos b) (- hi) (- lo)) as (f & -> & H1 & H2);
      try lia.
    exists (fopp f). split; [reflexivity|]. rewrite F2Q_fopp.
    rewrite inject_Z_opp in H1, H2. split.
    + apply Qopp_le_compat in H2. now rewrite !Qopp_involutive in H2.
    + apply Qopp_le_compat in H1. now rewrite !Qopp_involutive in H1.
Qed.

(** ** Invariant of the statistics *)

Lemma scores_of_In (name : pystr) (recs : list record) (x : Z) :
  In x (scores_of name recs) -> exists rec, In rec recs /\ snd rec = x.
Proof.
  unfold scores_of. rewrite in_map_iff. intros (rec & Hx & Hin).
  apply filter_In in Hin as [Hin _]. exists rec. auto.
Qed.

(** C2 (as amended). When every score has magnitude at most 2^53, the
    aggregator returns, and every entry satisfies min <= average <= max. *)
Theorem stats_min_average_max (py_int : pystr -> option Z)
        (data : list row) (recs : list record) :
  Forall2 (is_record py_int) data recs ->
  Forall (fun rec => - 2 ^ 53 <= snd rec <= 2 ^ 53) recs ->
  exists statistics,
    calculate_statistics py_int data = Ok statistics /\
    forall name st, dict_get name statistics = Some st ->
      int_le_float (min_score st) (average st) = true /\
      float_le_int (average st) (max_score st) = true.
Proof.
  intros Hrecs Hb. rewrite (calculate_statistics_records _ _ _ Hrecs).
  assert (Hscores : forall name x, In x (scores_of name recs) -> - 2 ^ 53 <= x <= 2 ^ 53).
  { intros name x Hx. apply scores_of_In in Hx as (rec & Hin & <-).
    rewrite Forall_forall in Hb. now apply Hb. }
  destruct (each_stats (group_records recs [])) as [statistics|e] eqn:Hs.
  - exists statistics. split; [reflexivity|]. intros name st Hget.
    apply dict_get_In in Hget. apply each_stats_ok in Hs.
    destruct (Forall2_entry _ _ _ _ Hs Hget) as (scores & Hin & Hst).
    apply group_records_entries in Hin as [_ ->].
    apply person_stats_spec in Hst as (Hdiv & [Imax Amax] & [Imin Amin]).
    set (scores := scores_of name recs) in *.
    assert (Hlen : 0 < Z.of_nat (List.length scores)).
    { destruct scores; [destruct Imax|cbn [List.length]; lia]. }
    assert (Hall : Forall (fun x => min_score st <= x <= max_score st) scores).
    { rewrite Forall_forall in *. intros x Hx. split; auto. }
    destruct (int_truediv_between (sum scores) (Z.of_nat (List.length scores))
                (min_score st) (max_score st)) as (f & Hf & H1 & H2).
    + exact Hlen.
    + now apply sum_bounds.
    + apply (Hscores name). exact Imin.
    + apply (Hscores name). exact Imax.
    + rewrite Hdiv in Hf. injection Hf as <-. auto.
  - exfalso. apply each_stats_err in Hs as (name & scores & Hin & Hst).
    apply group_records_entries in Hin as [Hname ->].
    pose proof (scores_of_nonempty _ _ Hname) as Hne.
    apply person_stats_error in Hst as [_ Hdiv]; [|assumption].
    set (scores := scores_of name recs) in *.
    destruct (int_truediv_between (sum scores) (Z.of_nat (List.length scores))
                (- 2 ^ 53) (2 ^ 53)) as (f & Hf & _).
    + destruct scores; [congruence|cbn [List.length]; lia].
    + apply sum_bounds. rewrite Forall_forall. intros x Hx. now apply (Hscores name).
    + lia.
    + lia.
    + congruence.
Qed.

Lemma stats_min_average_max_witness :
  exists statistics,
    calculate_statistics ascii_int scenario_rows = Ok statistics /\
    forall name st, dict_get name statistics = Some st ->
      int_le_float (min_score st) (average st) = true /\
      float_le_int (average st) (max_score st) = true.
Proof.
  apply (stats_min_average_max ascii_int scenario_rows scenario_records).
  - repeat constructor; simpl; eexists; split; reflexivity.
  - repeat constructor; simpl; lia.
Defined.

(** C2, as stated, fails: the single score 2^53 + 1 has the average 2^53,
    which is below the minimum. *)
Lemma min_above_average_counterexample :
  exists st,
    calculate_statistics ascii_int [record_row (lit "A") (lit "9007199254740993")]
    = Ok [(lit "A", st)] /\
    min_score st = 9007199254740993 /\
    average st = Ffinite false 4503599627370496 1 /\
    int_le_float (min_score st) (average st) = false.
Proof.
  exists {| average := Ffinite false 4503599627370496 1;
            max_score := 9007199254740993; min_score := 9007199254740993 |}.
  split; [vm_compute; reflexivity|]. split; [reflexivity|].
  split; [reflexivity|]. vm_compute. reflexivity.
Qed.

(** ** Order on floats and the extremes finder *)

Lemma float_ltb_lt (f g : float) : float_ltb f g = true <-> (F2Q f < F2Q g)%Q.
Proof.
  unfold float_ltb. rewrite Qlt_alt.
  destruct (F2Q f ?= F2Q g)%Q; split; congruence.
Qed.

Lemma float_ltb_ge (f g : float) : float_ltb f g = false <-> (F2Q g <= F2Q f)%Q.
Proof.
  rewrite <- Bool.not_true_iff_false, float_ltb_lt. split.
  - apply Qnot_lt_le.
  - intros H C. exact (Qlt_not_le _ _ C H).
Qed.

Lemma float_eqb_eq (f g : float) : float_eqb f g = true <-> (F2Q f == F2Q g)%Q.
Proof.
  unfold float_eqb. rewrite Qeq_alt.
  destruct (F2Q f ?= F2Q g)%Q; split; congruence.
Qed.

Lemma float_eqb_refl (f : float) : float_eqb f f = true.
Proof. apply float_eqb_eq. reflexivity. Qed.

Lemma fmax_fold_spec (xs : list float) (x : float) :
  is_fmax (fold_left (fun m y => if float_ltb m y then y else m) xs x) (x :: xs).
Proof.
  revert x. induction xs as [|y xs IH]; intros x; simpl.
  - split; [now left|]. constructor; [apply Qle_refl|constructor].
  - destruct (IH (if float_ltb x y then y else x)) as [Hin Hall].
    inversion Hall as [|? ? Hhd Htl]; subst. split.
    + destruct Hin as [Hin|Hin]; [|simpl; auto].
      rewrite <- Hin. destruct (float_ltb x y); simpl; auto.
    + destruct (float_ltb x y) eqn:E.
      * apply float_ltb_lt in E.
        constructor; [|constructor; assumption].
        eapply Qle_trans; [apply Qlt_le_weak; exact E|exact Hhd].
      * apply float_ltb_ge in E.
        constructor; [assumption|constructor; [|assumption]].
        eapply Qle_trans; [exact E|exact Hhd].
Qed.

Lemma fmin_fold_spec (xs : list float) (x : float) :
  is_fmin (fold_left (fun m y => if float_ltb y m then y else m) xs x) (x :: xs).
Proof.
  revert x. induction xs as [|y xs IH]; intros x; simpl.
  - split; [now left|]. constructor; [apply Qle_refl|constructor].
  - destruct (IH (if float_ltb y x then y else x)) as [Hin Hall].
    inversion Hall as [|? ? Hhd Htl]; subst. split.
    + destruct Hin as [Hin|Hin]; [|simpl; auto].
      rewrite <- Hin. destruct (float_ltb y x); simpl; auto.
    + destruct (float_ltb y x) eqn:E.
      * apply float_ltb_lt in E.
        constructor; [|constructor; assumption].
        eapply Qle_trans; [exact Hhd|apply Qlt_le_weak; exact E].
      * apply float_ltb_ge in E.
        constructor; [assumption|constructor; [|assumption]].
        eapply Qle_trans; [exact Hhd|exact E].
Qed.

(** On a non-empty mapping the extremes finder returns an attained largest
    and an attained smallest average. *)
Lemma find_max_min_average_spec (statistics : dict stats) :
  statistics <> [] ->
  exists max_average min_average,
    find_max_min_average statistics = Ok (max_average, min_average) /\
    is_fmax max_average (averages statistics) /\
    is_fmin min_average (averages statistics).
Proof.
  intros Hne. unfold find_max_min_average. fold (averages statistics).
  destruct statistics as [|[name st] rest]; [congruence|].
  unfold averages. simpl.
  eexists. eexists. split; [reflexivity|]. split.
  - apply fmax_fold_spec.
  - apply fmin_fold_spec.
Qed.

Lemma is_fmax_perm (l l' : list float) (m m' : float) :
  Permutation l l' -> is_fmax m l -> is_fmax m' l' -> (F2Q m == F2Q m')%Q.
Proof.
  intros P [I1 A1] [I2 A2]. rewrite Forall_forall in A1, A2.
  apply Qle_antisym.
  - apply A2. eapply Permutation_in; eassumption.
  - apply A1. eapply Permutation_in; [symmetry; eassumption|assumption].
Qed.

Lemma is_fmin_perm (l l' : list float) (m m' : float) :
  Permutation l l' -> is_fmin m l -> is_fmin m' l' -> (F2Q m == F2Q m')%Q.
Proof.
  intros P [I1 A1] [I2 A2]. rewrite Forall_forall in A1, A2.
  apply Qle_antisym.
  - apply A1. eapply Permutation_in; [symmetry; eassumption|assumption].
  - apply A2. eapply Permutation_in; eassumption.
Qed.

Lemma float_eqb_compat (f g g' : float) :
  (F2Q g == F2Q g')%Q -> float_eqb f g = float_eqb f g'.
Proof.
  intros E. unfold float_eqb. now rewrite E.
Qed.

Lemma row_emphasis_compat (stat : stats) (mx mn mx' mn' : float) :
  (F2Q mx == F2Q mx')%Q -> (F2Q mn == F2Q mn')%Q ->
  row_emphasis stat mx mn = row_emphasis stat mx' mn'.
Proof.
  intros E1 E2. unfold row_emphasis.
  now rewrite (float_eqb_compat _ _ _ E1), (float_eqb_compat _ _ _ E2).
Qed.

(** ** Sorting the names *)

Lemma str_le_trans (s t u : pystr) : str_le s t -> str_le t u -> str_le s u.
Proof.
  unfold str_le. intros H1 H2.
  destruct (str_ltb u s) eqn:C; [|reflexivity].
  destruct (str_ltb s t) eqn:E.
  - rewrite (str_ltb_trans _ _ _ C E) in H2. discriminate.
  - rewrite (str_ltb_total _ _ E H1) in C. congruence.
Qed.

Lemma insert_sorted_perm (x : pystr) (l : list pystr) :
  Permutation (insert_sorted x l) (x :: l).
Proof.
  induction l as [|y l IH]; simpl; [reflexivity|].
  destruct (str_ltb y x); [|reflexivity].
  etransitivity; [apply perm_skip; exact IH|apply perm_swap].
Qed.

Lemma sorted_perm (l : list pystr) : Permutation (sorted l) l.
Proof.
  induction l as [|x l IH]; simpl; [reflexivity|].
  etransitivity; [apply insert_sorted_perm|]. now apply perm_skip.
Qed.

Lemma insert_sorted_le (x : pystr) (l : list pystr) :
  StronglySorted str_le l -> StronglySorted str_le (insert_sorted x l).
Proof.
  induction l as [|y l IH]; simpl; intros Hs.
  - repeat constructor.
  - inversion Hs as [|? ? Hs' Hall]; subst.
    destruct (str_ltb y x) eqn:E.
    + constructor; [now apply IH|].
      eapply Permutation_Forall; [symmetry; apply insert_sorted_perm|].
      constructor; [|assumption]. now apply str_ltb_asym.
    + constructor; [assumption|]. constructor; [exact E|].
      rewrite Forall_forall in *. intros z Hz.
      eapply str_le_trans; [exact E|]. now apply Hall.
Qed.

Lemma sorted_le (l : list pystr) : StronglySorted str_le (sorted l).
Proof.
  induction l as [|x l IH]; simpl; [constructor|]. now apply insert_sorted_le.
Qed.

Lemma sorted_le_lt (l : list pystr) :
  NoDup l -> StronglySorted str_le l -> StronglySorted str_lt l.
Proof.
  induction 2 as [|x l Hs IH Hall]; [constructor|].
  inversion H as [|? ? Hx Hnd]; subst. constructor; [now apply IH|].
  rewrite Forall_forall in *. intros y Hy. specialize (Hall y Hy).
  unfold str_lt, str_le in *.
  destruct (str_ltb x y) eqn:E; [reflexivity|].
  exfalso. apply Hx. now rewrite (str_ltb_total _ _ E Hall).
Qed.

(** Unique names come out strictly ascending. *)
Lemma sorted_ascending (l : list pystr) : NoDup l -> StronglySorted str_lt (sorted l).
Proof.
  intros Hnd. apply sorted_le_lt; [|apply sorted_le].
  eapply Permutation_NoDup; [symmetry; apply sorted_perm|assumption].
Qed.

Lemma ascending_unique (l l' : list pystr) :
  StronglySorted str_lt l -> StronglySorted str_lt l' -> Permutation l l' -> l = l'.
Proof.
  intros Hl. revert l'. induction Hl as [|a l Hs IH Ha]; intros l' Hl' P.
  - apply Permutation_nil in P. now subst.
  - destruct Hl' as [|b l' Hs' Hb].
    + symmetry in P. now apply Permutation_nil in P.
    + assert (E : a = b).
      { rewrite Forall_forall in Ha, Hb.
        assert (Ia : In a (b :: l')) by (eapply Permutation_in; [exact P|now left]).
        assert (Ib : In b (a :: l)).
        { eapply Permutation_in; [symmetry; exact P|now left]. }
        destruct Ia as [->|Ia]; [reflexivity|].
        destruct Ib as [->|Ib]; [reflexivity|].
        apply Hb in Ia. apply Ha in Ib. unfold str_lt in *.
        apply str_ltb_asym in Ia. congruence. }
      subst b. f_equal. apply IH; [assumption|].
      eapply Permutation_cons_inv. exact P.
Qed.

Lemma sorted_perm_eq (l l' : list pystr) :
  NoDup l -> Permutation l l' -> sorted l = sorted l'.
Proof.
  intros Hnd P. apply ascending_unique.
  - now apply sorted_ascending.
  - apply sorted_ascending. eapply Permutation_NoDup; eassumption.
  - etransitivity; [apply sorted_perm|].
    etransitivity; [exact P|]. symmetry. apply sorted_perm.
Qed.

(** ** The rendered table *)

Lemma print_rows_output (pal : palette) (statistics : dict stats)
      (mx mn : float) (names : list pystr) (out : output) :
  (forall name, In name names -> In name (keys statistics)) ->
  for_each names (print_row pal statistics mx mn) out =
  (out ++ List.map (marked_line pal)
             (List.map (fun entry => (row_emphasis (snd entry) mx mn, entry))
                       (flat_map (entry_of statistics) names)),
   Ok tt).
Proof.
  revert out. induction names as [|name names IH]; intros out Hin; simpl.
  - now rewrite app_nil_r.
  - unfold io_bind at 1. unfold print_row at 1, io_bind, lift, dict_lookup, entry_of at 1.
    destruct (dict_get name statistics) as [stat|] eqn:E.
    + unfold print. rewrite IH by (intros n Hn; apply Hin; now right).
      simpl. rewrite <- app_assoc. reflexivity.
    + exfalso. apply dict_get_None in E. apply E. apply Hin. now left.
Qed.

(** What [display_table] prints once the extremes are known. *)
Lemma display_table_output (pal : palette) (statistics : dict stats)
      (mx mn : float) (out : output) :
  find_max_min_average statistics = Ok (mx, mn) ->
  display_table pal statistics out = (out ++ table_lines pal statistics mx mn, Ok tt).
Proof.
  intros Hfind. unfold display_table, io_bind, lift. rewrite Hfind.
  unfold print at 1 2 3. rewrite print_rows_output.
  - unfold print, table_lines, table_head, table_foot, marked_rows, sorted_entries.
    rewrite <- !app_assoc. reflexivity.
  - intros name Hn. eapply Permutation_in; [apply sorted_perm|exact Hn].
Qed.

Lemma entries_of_keys (statistics : dict stats) (names : list pystr) :
  (forall name, In name names -> In name (keys statistics)) ->
  List.map fst (flat_map (entry_of statistics) names) = names.
Proof.
  induction names as [|name names IH]; intros Hin; simpl; [reflexivity|].
  unfold entry_of at 1.
  destruct (dict_get name statistics) as [stat|] eqn:E.
  - simpl. f_equal. apply IH. intros n Hn. apply Hin. now right.
  - exfalso. apply dict_get_None in E. apply E. apply Hin. now left.
Qed.

Lemma In_entries_of (statistics : dict stats) (names : list pystr) name stat :
  In (name, stat) (flat_map (entry_of statistics) names) <->
  In name names /\ dict_get name statistics = Some stat.
Proof.
  rewrite in_flat_map. unfold entry_of. split.
  - intros (n & Hn & Hin). destruct (dict_get n statistics) as [s|] eqn:E; [|destruct Hin].
    destruct Hin as [[= -> ->]|[]]. auto.
  - intros [Hn Hget]. exists name. rewrite Hget. split; [assumption|now left].
Qed.

Lemma sorted_entries_names (statistics : dict stats) :
  List.map fst (sorted_entries statistics) = sorted (keys statistics).
Proof.
  apply entries_of_keys. intros name Hn.
  eapply Permutation_in; [apply sorted_perm|exact Hn].
Qed.

(** The printed entries are the entries of the mapping, reordered. *)
Lemma sorted_entries_perm (statistics : dict stats) :
  NoDup (keys statistics) -> Permutation (sorted_entries statistics) statistics.
Proof.
  intros Hnd. apply NoDup_Permutation.
  - apply (NoDup_map_inv fst). rewrite sorted_entries_names.
    eapply Permutation_NoDup; [symmetry; apply sorted_perm|assumption].
  - apply (NoDup_map_inv fst). exact Hnd.
  - intros [name stat]. unfold sorted_entries. rewrite In_entries_of. split.
    + intros [_ H]. now apply dict_get_In.
    + intros H. split.
      * eapply Permutation_in; [symmetry; apply sorted_perm|].
        unfold keys. change name with (fst (name, stat)). now apply in_map.
      * now apply In_dict_get.
Qed.

(** ** Emphasis of the rows *)












(** ** The scenario of the specification *)

(** C4. Rows reading as [("Alice",80); ("Bob",90); ("Alice",100)] aggregate
    to Alice: 90.0 / 100 / 80 and Bob: 90.0 / 90 / 90; both averages print as
    "90.0", both rows are marked "high" and none "low". *)
Theorem scenario_tie (py_int : pystr -> option Z) (data : list row) :
  Forall2 (is_record py_int) data scenario_records ->
  calculate_statistics py_int data = Ok scenario_statistics /\
  List.map (fun entry => format_score (average (snd entry))) scenario_statistics
  = [lit "90.0"; lit "90.0"] /\
  find_max_min_average scenario_statistics = Ok (float_90, float_90) /\
  row_marks scenario_statistics float_90 float_90 = [High; High] /\
  count_marks is_low (row_marks scenario_statistics float_90 float_90) = 0%nat /\
  forall out,
    display_table colorama scenario_statistics out =
    (out ++ table_head ++ [scenario_row_alice; scenario_row_bob] ++ table_foot colorama,
     Ok tt).
Proof.
  intros Hrecs. rewrite (calculate_statistics_records _ _ _ Hrecs).
  split; [vm_compute; reflexivity|]. split; [vm_compute; reflexivity|].
  split; [vm_compute; reflexivity|]. split; [vm_compute; reflexivity|].
  split; [vm_compute; reflexivity|].
  intros out. rewrite (display_table_output _ _ float_90 float_90).
  - apply f_equal2; [|reflexivity]. apply f_equal. vm_compute. reflexivity.
  - vm_compute. reflexivity.
Qed.

Lemma scenario_tie_witness :
  calculate_statistics ascii_int scenario_rows = Ok scenario_statistics /\
  List.map (fun entry => format_score (average (snd entry))) scenario_statistics
  = [lit "90.0"; lit "90.0"] /\
  find_max_min_average scenario_statistics = Ok (float_90, float_90) /\
  row_marks scenario_statistics float_90 float_90 = [High; High] /\
  count_marks is_low (row_marks scenario_statistics float_90 float_90) = 0%nat /\
  forall out,
    display_table colorama scenario_statistics out =
    (out ++ table_head ++ [scenario_row_alice; scenario_row_bob] ++ table_foot colorama,
     Ok tt).
Proof.
  apply (scenario_tie ascii_int scenario_rows).
  repeat constructor; simpl; eexists; split; reflexivity.
Defined.

(** ** Layout of the table *)

Lemma ljust_length (w : nat) (s : pystr) :
  List.length (ljust w s) = Nat.max w (List.length s).
Proof.
  unfold ljust. rewrite length_app, repeat_length. lia.
Qed.

Lemma uint_codes_digits (u : Decimal.uint) : Forall is_digit (uint_codes u).
Proof.
  induction u; simpl; constructor; try assumption; unfold is_digit; lia.
Qed.

Lemma last_digit (r : Z) :
  0 <= r < 10 -> exists d, str_of_N (Z.to_N r) = [d] /\ is_digit d.
Proof.
  intros H.
  assert (C : r = 0 \/ r = 1 \/ r = 2 \/ r = 3 \/ r = 4 \/
              r = 5 \/ r = 6 \/ r = 7 \/ r = 8 \/ r = 9) by lia.
  unfold is_digit.
  repeat (destruct C as [->|C]; [eexists; split; [reflexivity|lia]|]).
  subst r. eexists. split; [reflexivity|lia].
Qed.

Lemma fixed1_shape (neg : bool) (n : Z) :
  exists whole d, fixed1 neg n = whole ++ [dot; d] /\ is_digit d /\ ~ In dot whole.
Proof.
  destruct (last_digit (n mod 10)) as (d & Hd & Hdig).
  { apply Z.mod_pos_bound. lia. }
  exists (sign_text neg ++ str_of_N (Z.to_N (n / 10))), d.
  unfold fixed1. rewrite Hd, <- app_assoc. split; [reflexivity|].
  split; [assumption|]. rewrite in_app_iff. intros [H|H].
  - destruct neg; simpl in H; [destruct H as [H|[]]; discriminate|destruct H].
  - pose proof (uint_codes_digits (N.to_uint (Z.to_N (n / 10)))) as F.
    rewrite Forall_forall in F. apply F in H. unfold is_digit, dot in H. lia.
Qed.

(** One decimal place: the text ends with a point and a single digit. *)
Lemma format_score_shape (score : float) :
  exists whole d, format_score score = whole ++ [dot; d] /\ is_digit d /\ ~ In dot whole.
Proof.
  destruct score; simpl; apply fixed1_shape.
Qed.

Lemma round_half_even_error (num den : Z) :
  0 < den ->
  - den <= 2 * num - 2 * den * round_half_even num den <= den.
Proof.
  intros Hd. unfold round_half_even.
  pose proof (Z.div_mod num den ltac:(lia)) as E.
  pose proof (Z.mod_pos_bound num den Hd) as B.
  destruct (Z.compare_spec (2 * (num mod den)) den) as [C|C|C].
  - destruct (Z.even (num / den)); nia.
  - nia.
  - nia.
Qed.

Lemma round_half_even_tie (num den : Z) :
  0 < den ->
  Z.abs (2 * num - 2 * den * round_half_even num den) = den ->
  Z.even (round_half_even num den) = true.
Proof.
  intros Hd. unfold round_half_even.
  pose proof (Z.div_mod num den ltac:(lia)) as E.
  pose proof (Z.mod_pos_bound num den Hd) as B.
  destruct (Z.compare_spec (2 * (num mod den)) den) as [C|C|C].
  - destruct (Z.even (num / den)) eqn:Ev; intros H; [exact Ev|].
    rewrite Z.even_add, Ev. reflexivity.
  - intros H. nia.
  - intros H. nia.
Qed.

Lemma dyadic_nonneg (m : positive) (e : Z) : (0 <= dyadic (Z.pos m) e)%Q.
Proof.
  unfold dyadic. destruct (0 <=? e).
  - change 0%Q with (inject_Z 0). rewrite <- Zle_Qle.
    apply Z.mul_nonneg_nonneg; [lia|]. apply Z.pow_nonneg. lia.
  - unfold Qle. simpl. lia.
Qed.

Lemma Qabs_F2Q (s : bool) (m : positive) (e : Z) :
  (Qabs (F2Q (Ffinite s m e)) == dyadic (Z.pos m) e)%Q.
Proof.
  simpl. destruct s; simpl.
  - change (Z.neg m) with (- Z.pos m). rewrite dyadic_opp, Qabs_opp.
    apply Qabs_pos, dyadic_nonneg.
  - apply Qabs_pos, dyadic_nonneg.
Qed.

(** The tenths printed for an average: the nearest integer to ten times its
    magnitude, the even one of the two at a tie. *)
Lemma format_score_tenths (score : float) :
  exists n : Z,
    0 <= n /\
    format_score score =
      sign_text (float_neg score) ++ str_of_N (Z.to_N (n / 10)) ++
      dot :: str_of_N (Z.to_N (n mod 10)) /\
    (Qabs (Qabs (F2Q score) * inject_Z 10 - inject_Z n) <= 1 # 2)%Q /\
    ((Qabs (Qabs (F2Q score) * inject_Z 10 - inject_Z n) == 1 # 2)%Q ->
     Z.even n = true).
Proof.
  destruct score as [s|s m e].
  - exists 0. split; [lia|]. split; [reflexivity|]. split; [|reflexivity].
    simpl. unfold Qle. simpl. lia.
  - exists (tenths m e). unfold tenths.
    assert (Hn : 0 <= (if 0 <=? e then 10 * Z.pos m * 2 ^ e
                       else round_half_even (10 * Z.pos m) (2 ^ (- e)))).
    { destruct (Z.leb_spec 0 e).
      - apply Z.mul_nonneg_nonneg; [lia|]. apply Z.pow_nonneg. lia.
      - apply round_half_even_nonneg; [apply Z.pow_pos_nonneg|]; lia. }
    split; [exact Hn|]. split; [reflexivity|].
    rewrite Qabs_F2Q. unfold dyadic.
    destruct (Z.leb_spec 0 e) as [He|He].
    + split.
      * apply Qabs_Qle_condition.
        unfold Qle, Qminus, Qplus, Qmult, Qopp. cbn [Qnum Qden inject_Z].
        rewrite ?Pos.mul_1_r, ?Z.mul_1_r. split; nia.
      * intros H. exfalso. revert H.
        unfold Qeq, Qabs, Qminus, Qplus, Qmult, Qopp. cbn [Qnum Qden inject_Z].
        rewrite ?Pos.mul_1_r, ?Z.mul_1_r. 
        replace (Z.pos m * 2 ^ e * 10 + - (10 * Z.pos m * 2 ^ e)) with 0 by ring.
        simpl. lia.
    + assert (Hp : 0 < 2 ^ (- e)) by (apply Z.pow_pos_nonneg; lia).
      pose proof (round_half_even_error (10 * Z.pos m) (2 ^ (- e)) Hp) as Herr.
      pose proof (round_half_even_tie (10 * Z.pos m) (2 ^ (- e)) Hp) as Htie.
      split.
      * apply Qabs_Qle_condition.
        unfold Qle, Qminus, Qplus, Qmult, Qopp. cbn [Qnum Qden inject_Z].
        rewrite !Pos.mul_1_r, !Z.mul_1_r, Z2Pos.id by assumption.
        split; nia.
      * intros H. apply Htie. revert H.
        unfold Qeq, Qabs, Qminus, Qplus, Qmult, Qopp. cbn [Qnum Qden inject_Z].
        rewrite !Pos.mul_1_r, !Z.mul_1_r, Z2Pos.id by assumption.
        intros H. nia.
Qed.

Lemma sorted_entries_perm_eq (statistics statistics' : dict stats) :
  NoDup (keys statistics) -> Permutation statistics statistics' ->
  sorted_entries statistics' = sorted_entries statistics.
Proof.
  intros Hnd P. unfold sorted_entries.
  rewrite <- (sorted_perm_eq (keys statistics) (keys statistics'));
    [|assumption|now apply Permutation_map].
  apply flat_map_ext. intros name. unfold entry_of.
  now rewrite (dict_get_perm _ _ name Hnd P).
Qed.

(** The output does not depend on the internal order of the mapping. *)
Lemma display_table_perm (pal : palette) (statistics statistics' : dict stats)
      (out : output) :
  statistics <> [] -> NoDup (keys statistics) -> Permutation statistics statistics' ->
  display_table pal statistics' out = display_table pal statistics out.
Proof.
  intros Hne Hnd P.
  assert (Hne' : statistics' <> []).
  { intros ->. apply Permutation_sym, Permutation_nil in P. contradiction. }
  destruct (find_max_min_average_spec _ Hne) as (mx & mn & Hf & Hmax & Hmin).
  destruct (find_max_min_average_spec _ Hne') as (mx' & mn' & Hf' & Hmax' & Hmin').
  rewrite (display_table_output _ _ _ _ _ Hf), (display_table_output _ _ _ _ _ Hf').
  assert (Pa : Permutation (averages statistics) (averages statistics')).
  { unfold averages, values. now repeat apply Permutation_map. }
  pose proof (is_fmax_perm _ _ _ _ Pa Hmax Hmax') as Emax.
  pose proof (is_fmin_perm _ _ _ _ Pa Hmin Hmin') as Emin.
  unfold table_lines, marked_rows.
  rewrite (sorted_entries_perm_eq _ _ Hnd P).
  rewrite (map_ext (fun entry => (row_emphasis (snd entry) mx' mn', entry))
                   (fun entry => (row_emphasis (snd entry) mx mn, entry)));
    [reflexivity|].
  intros entry. f_equal. symmetry. now apply row_emphasis_compat.
Qed.

(** C6. For a non-empty mapping the table consists of the heading, one line
    per participant and the legend; the participant lines come in strictly
    ascending order of name whatever the internal order of the mapping; each
    line holds name, average with one decimal place, max and min,
    left-aligned and padded with spaces to 20, 15, 15 and 15 characters. The
    text of the average is its sign, then the digits of [n / 10], a point and
    the digit [n mod 10], where [n] is the integer nearest to ten times the
    magnitude of the average, the even one at a tie. *)
Theorem table_layout (pal : palette) (statistics : dict stats) (out : output) :
  statistics <> [] -> NoDup (keys statistics) ->
  exists max_average min_average,
    let rows := marked_rows statistics max_average min_average in
    find_max_min_average statistics = Ok (max_average, min_average) /\
    display_table pal statistics out =
      (out ++ table_head ++ List.map (marked_line pal) rows ++ table_foot pal, Ok tt) /\
    StronglySorted str_lt (List.map (fun row => fst (snd row)) rows) /\
    Permutation (List.map snd rows) statistics /\
    (forall em name stat,
        row_line pal em name stat =
        color_start pal em ++
        (ljust 20 name ++ space ::
         ljust 15 (format_score (average stat)) ++ space ::
         ljust 15 (str_of_int (max_score stat)) ++ space ::
         ljust 15 (str_of_int (min_score stat))) ++
        color_end pal em) /\
    (forall w text,
        ljust w text = text ++ repeat space (w - List.length text) /\
        List.length (ljust w text) = Nat.max w (List.length text)) /\
    (forall stat, exists whole d,
        format_score (average stat) = whole ++ [dot; d] /\
        is_digit d /\ ~ In dot whole) /\
    (forall stat, exists n : Z,
        0 <= n /\
        format_score (average stat) =
          sign_text (float_neg (average stat)) ++ str_of_N (Z.to_N (n / 10)) ++
          dot :: str_of_N (Z.to_N (n mod 10)) /\
        (Qabs (Qabs (F2Q (average stat)) * inject_Z 10 - inject_Z n) <= 1 # 2)%Q /\
        ((Qabs (Qabs (F2Q (average stat)) * inject_Z 10 - inject_Z n) == 1 # 2)%Q ->
         Z.even n = true)) /\
    (forall statistics',
        Permutation statistics statistics' ->
        display_table pal statistics' out = display_table pal statistics out).
Proof.
  intros Hne Hnd.
  destruct (find_max_min_average_spec _ Hne) as (mx & mn & Hf & _ & _).
  exists mx, mn. cbv zeta.
  assert (Hrows : List.map snd (marked_rows statistics mx mn) = sorted_entries statistics).
  { unfold marked_rows. rewrite map_map. simpl. apply map_id. }
  split; [assumption|]. split; [now apply display_table_output|].
  split; [|split; [|split; [|split; [|split; [|split]]]]].
  - rewrite <- (map_map snd fst), Hrows, sorted_entries_names.
    now apply sorted_ascending.
  - rewrite Hrows. now apply sorted_entries_perm.
  - reflexivity.
  - intros w text. split; [reflexivity|apply ljust_length].
  - intros stat. apply format_score_shape.
  - intros stat. apply format_score_tenths.
  - intros statistics' P. now apply display_table_perm.
Qed.

Lemma table_layout_witness :
  exists max_average min_average,
    let rows := marked_rows scenario_statistics max_average min_average in
    find_max_min_average scenario_statistics = Ok (max_average, min_average) /\
    display_table colorama scenario_statistics [] =
      ([] ++ table_head ++ List.map (marked_line colorama) rows ++ table_foot colorama,
       Ok tt) /\
    StronglySorted str_lt (List.map (fun row => fst (snd row)) rows) /\
    Permutation (List.map snd rows) scenario_statistics /\
    (forall em name stat,
        row_line colorama em name stat =
        color_start colorama em ++
        (ljust 20 name ++ space ::
         ljust 15 (format_score (average stat)) ++ space ::
         ljust 15 (str_of_int (max_score stat)) ++ space ::
         ljust 15 (str_of_int (min_score stat))) ++
        color_end colorama em) /\
    (forall w text,
        ljust w text = text ++ repeat space (w - List.length text) /\
        List.length (ljust w text) = Nat.max w (List.length text)) /\
    (forall stat, exists whole d,
        format_score (average stat) = whole ++ [dot; d] /\
        is_digit d /\ ~ In dot whole) /\
    (forall stat, exists n : Z,
        0 <= n /\
        format_score (average stat) =
          sign_text (float_neg (average stat)) ++ str_of_N (Z.to_N (n / 10)) ++
          dot :: str_of_N (Z.to_N (n mod 10)) /\
        (Qabs (Qabs (F2Q (average stat)) * inject_Z 10 - inject_Z n) <= 1 # 2)%Q /\
        ((Qabs (Qabs (F2Q (average stat)) * inject_Z 10 - inject_Z n) == 1 # 2)%Q ->
         Z.even n = true)) /\
    (forall statistics',
        Permutation scenario_statistics statistics' ->
        display_table colorama statistics' [] =
        display_table colorama scenario_statistics []).
Proof.
  apply (table_layout colorama scenario_statistics []).
  - discriminate.
  - distinct_names.
Defined.

(** ** Loader and entry point *)

Lemma append_loop {A : Type} (rows acc : list A) :
  fold_left (fun data r => data ++ [r]) rows acc = acc ++ rows.
Proof.
  revert acc. induction rows as [|r rows IH]; intros acc; simpl.
  - now rewrite app_nil_r.
  - rewrite IH, <- app_assoc. reflexivity.
Qed.

(** The loader hands over what the reader yields, rows or exception. *)
Lemma load_csv_data_reader (fs : filesystem) (filename : pystr) :
  load_csv_data fs filename = fs filename.
Proof.
  unfold load_csv_data. destruct (fs filename) as [rows|e]; simpl; [|reflexivity].
  now rewrite append_loop.
Qed.

Section EntryPoint.
Variable py_int : pystr -> option Z.
Variable describe : exn -> pystr.

Lemma run_load_error (fs : filesystem) (pal : palette) (e : exn) :
  fs CSV_FILE = Err e ->
  run py_int describe fs pal =
  msg_loading ::
  match e with
  | FileNotFoundError => not_found_message
  | _ => generic_message describe e
  end.
Proof.
  intros Hfs. unfold run, main, main_body, io_bind, print, lift.
  rewrite load_csv_data_reader, Hfs. simpl. now destruct e.
Qed.

Lemma run_aggregation_error (fs : filesystem) (pal : palette)
      (data : list row) (e : exn) :
  fs CSV_FILE = Ok data ->
  calculate_statistics py_int data = Err e ->
  e <> FileNotFoundError ->
  run py_int describe fs pal =
  [msg_loading; loaded_line data; msg_computing] ++ generic_message describe e.
Proof.
  intros Hfs Hcalc Hne. unfold run, main, main_body, io_bind, print, lift.
  rewrite load_csv_data_reader, Hfs. simpl. rewrite Hcalc. simpl.
  destruct e; try reflexivity. congruence.
Qed.

Lemma group_scores_app (good tail : list row) (recs : list record) acc :
  Forall2 (is_record py_int) good recs ->
  group_scores py_int (good ++ tail) acc =
  group_scores py_int tail (group_records recs acc).
Proof.
  intros H. revert acc. induction H as [|r rec good recs Hr _ IH]; intros acc; simpl.
  - reflexivity.
  - rewrite (add_row_record _ _ _ _ Hr). simpl. apply IH.
Qed.

(** The aggregator stops at the first row that does not read as a record,
    with the exception that row raises. *)
Lemma calculate_statistics_first_failure
      (good rest : list row) (recs : list record) (r : row) (e : exn) :
  Forall2 (is_record py_int) good recs ->
  (forall acc, add_row py_int acc r = Err e) ->
  calculate_statistics py_int (good ++ r :: rest) = Err e.
Proof.
  intros Hgood Hr. unfold calculate_statistics.
  rewrite (group_scores_app _ _ _ _ Hgood). simpl. now rewrite Hr.
Qed.
End EntryPoint.




(** C8. On an empty mapping the extremes finder raises (the [ValueError] of
    [max] on an empty sequence) instead of returning a value, and the table
    printer, which calls it first, prints nothing. *)
Theorem extremes_of_empty_fail :
  find_max_min_average [] = Err (ValueError (EmptySequence (lit "max"))) /\
  forall pal out,
    display_table pal [] out = (out, Err (ValueError (EmptySequence (lit "max")))).
Proof.
  split; [reflexivity|]. intros pal out. reflexivity.
Qed.

(** When loading fails, [main] adds the progress message of the load step
    and the message of the handler to what has been printed before. *)
Lemma main_load_error (py_int : pystr -> option Z) (describe : exn -> pystr)
      (fs : filesystem) (pal : palette) (e : exn) (out : output) :
  fs CSV_FILE = Err e ->
  fst (main py_int describe fs pal out) =
  out ++ msg_loading ::
  match e with
  | FileNotFoundError => not_found_message
  | _ => generic_message describe e
  end.
Proof.
  intros Hfs. unfold main, main_body, io_bind, print, lift.
  rewrite load_csv_data_reader, Hfs. simpl.
  destruct e; simpl; rewrite <- app_assoc; reflexivity.
Qed.

(** None of the lines of a run without a file is the rule of the table. *)
Lemma missing_file_lines_no_rule (lines : output) :
  incl lines (msg_not_installed :: msg_installed :: msg_install_failed ::
              msg_loading :: not_found_message) ->
  ~ In rule lines.
Proof.
  intros Hincl Hin. apply Hincl in Hin.
  repeat (destruct Hin as [Hin|Hin];
          [apply (f_equal (@List.length N)) in Hin; vm_compute in Hin; discriminate Hin|]).
  destruct Hin.
Qed.

(** C9 (as amended). When the input path does not exist and the start-up of
    the module completes, the program prints the lines of the start-up
    (none when colorama is importable; otherwise the notice that it is not
    installed, then the notice that the installation succeeded or the
    notice that it failed), then the progress message of the load step,
    then the two lines of the "file not found" message, and nothing else:
    no table. When an exception escapes the start-up, only the lines of the
    start-up printed until then appear. *)
Theorem missing_file_output
        (py_int : pystr -> option Z) (describe : exn -> pystr)
        (env : environment) (fs : filesystem) :
  fs CSV_FILE = Err FileNotFoundError ->
  (first_try env = Succeeds ->
   program py_int describe env fs = msg_loading :: not_found_message) /\
  (first_try env = RaisesImportError -> second_try env = Succeeds ->
   program py_int describe env fs =
   msg_not_installed :: msg_installed :: msg_loading :: not_found_message) /\
  (first_try env = RaisesImportError ->
   second_try env = RaisesImportError \/ second_try env = RaisesException ->
   program py_int describe env fs =
   msg_not_installed :: msg_install_failed :: msg_loading :: not_found_message) /\
  (first_try env = RaisesImportError -> second_try env = RaisesBaseException ->
   program py_int describe env fs = [msg_not_installed]) /\
  (first_try env = RaisesException \/ first_try env = RaisesBaseException ->
   program py_int describe env fs = []) /\
  ~ In rule (program py_int describe env fs).
Proof.
  intros Hfs.
  assert (Hmain : forall pal out,
             fst (main py_int describe fs pal out) =
             out ++ msg_loading :: not_found_message).
  { intros pal out. apply (main_load_error _ _ _ _ _ _ Hfs). }
  unfold program, startup.
  destruct (first_try env) eqn:E1; [| destruct (second_try env) eqn:E2 | |];
    rewrite ?Hmain; cbn [fst app];
    (split; [intros; try discriminate; reflexivity|]);
    (split; [intros; try discriminate; reflexivity|]);
    (split; [intros ? [?|?]; try discriminate; reflexivity|]);
    (split; [intros; try discriminate; reflexivity|]);
    (split; [intros [?|?]; try discriminate; reflexivity|]);
    apply missing_file_lines_no_rule; intros x Hx; simpl in *; tauto.
Qed.

Lemma missing_file_output_witness :
  (first_try uninstallable_env = Succeeds ->
   program ascii_int describe_exn uninstallable_env missing_fs =
   msg_loading :: not_found_message) /\
  (first_try uninstallable_env = RaisesImportError ->
   second_try uninstallable_env = Succeeds ->
   program ascii_int describe_exn uninstallable_env missing_fs =
   msg_not_installed :: msg_installed :: msg_loading :: not_found_message) /\
  (first_try uninstallable_env = RaisesImportError ->
   second_try uninstallable_env = RaisesImportError \/
   second_try uninstallable_env = RaisesException ->
   program ascii_int describe_exn uninstallable_env missing_fs =
   msg_not_installed :: msg_install_failed :: msg_loading :: not_found_message) /\
  (first_try uninstallable_env = RaisesImportError ->
   second_try uninstallable_env = RaisesBaseException ->
   program ascii_int describe_exn uninstallable_env missing_fs = [msg_not_installed]) /\
  (first_try uninstallable_env = RaisesException \/
   first_try uninstallable_env = RaisesBaseException ->
   program ascii_int describe_exn uninstallable_env missing_fs = []) /\
  ~ In rule (program ascii_int describe_exn uninstallable_env missing_fs).
Proof.
  apply (missing_file_output ascii_int describe_exn uninstallable_env missing_fs).
  reflexivity.
Defined.

(** C9, as stated, fails: with colorama importable and the file missing, the
    output is not exactly the "file not found" message, the progress message
    of the load step comes first. *)
Lemma missing_file_output_counterexample :
  missing_fs CSV_FILE = Err FileNotFoundError /\
  first_try importable_env = Succeeds /\
  program ascii_int describe_exn importable_env missing_fs =
    msg_loading :: not_found_message /\
  program ascii_int describe_exn importable_env missing_fs <> not_found_message.
Proof.
  repeat split; try reflexivity. vm_compute. discriminate.
Qed.

(** Under one header a field is missing from every row or from none, so the
    lookup that fails is the same in all rows. *)
Lemma same_fields_missing_key (data : list row) (r r' : row) :
  same_fields data -> In r data -> In r' data -> lacks_field r ->
  lacks_field r' /\ missing_key r' = missing_key r.
Proof.
  intros Hsame Hr Hr' Hlack. unfold lacks_field, missing_key in *.
  pose proof (Hsame r r' Hr Hr' key_name) as Hn.
  pose proof (Hsame r r' Hr Hr' key_score) as Hs.
  destruct (dict_get key_name r) as [name|] eqn:E.
  - destruct Hlack as [H|H]; [discriminate|].
    destruct (dict_get key_name r') as [name'|] eqn:E'.
    + split; [right; now apply Hs|reflexivity].
    + destruct Hn as [_ Hn]. specialize (Hn eq_refl). discriminate.
  - destruct Hn as [Hn _]. rewrite (Hn eq_refl). auto.
Qed.

(** C10. The aggregator needs the fields '名前' and 'スコア' in every loaded
    row: when a row lacks either of them, aggregation fails with the
    [KeyError] of that lookup, and the entry point reports it through the
    generic error message, which is not the "file not found" message. *)
Theorem missing_field_key_error
        (py_int : pystr -> option Z) (describe : exn -> pystr)
        (fs : filesystem) (pal : palette) (data : list row) (r : row) :
  fs CSV_FILE = Ok data ->
  same_fields data ->
  In r data ->
  lacks_field r ->
  calculate_statistics py_int data = Err (KeyError (missing_key r)) /\
  run py_int describe fs pal =
    [msg_loading; loaded_line data; msg_computing] ++
    generic_message describe (KeyError (missing_key r)) /\
  run py_int describe fs pal <> msg_loading :: not_found_message.
Proof.
  intros Hfs Hsame Hin Hlack.
  destruct data as [|r0 rest]; [destruct Hin|].
  destruct (same_fields_missing_key _ r r0 Hsame Hin (or_introl eq_refl) Hlack)
    as [Hlack0 Hkey].
  assert (Hcalc : calculate_statistics py_int (r0 :: rest)
                  = Err (KeyError (missing_key r))).
  { apply (calculate_statistics_first_failure py_int [] rest [] r0); [constructor|].
    intros acc. rewrite <- Hkey. unfold add_row, dict_lookup, missing_key.
    destruct (dict_get key_name r0) as [name|] eqn:E; simpl; [|reflexivity].
    destruct Hlack0 as [H|H]; [congruence|]. now rewrite H. }
  assert (Hrun : run py_int describe fs pal =
                 [msg_loading; loaded_line (r0 :: rest); msg_computing] ++
                 generic_message describe (KeyError (missing_key r))).
  { apply run_aggregation_error; [assumption|assumption|discriminate]. }
  split; [assumption|]. split; [assumption|].
  rewrite Hrun. intros C. apply (f_equal (@List.length pystr)) in C.
  discriminate C.
Qed.

Lemma missing_field_key_error_witness :
  calculate_statistics ascii_int scoreless_rows
  = Err (KeyError (missing_key (scoreless_row (lit "B")))) /\
  run ascii_int describe_exn scoreless_fs plain =
    [msg_loading; loaded_line scoreless_rows; msg_computing] ++
    generic_message describe_exn (KeyError (missing_key (scoreless_row (lit "B")))) /\
  run ascii_int describe_exn scoreless_fs plain <> msg_loading :: not_found_message.
Proof.
  apply (missing_field_key_error ascii_int describe_exn scoreless_fs plain
           scoreless_rows (scoreless_row (lit "B"))).
  - reflexivity.
  - intros r r' Hr Hr' k.
    destruct Hr as [<-|[<-|[]]]; destruct Hr' as [<-|[<-|[]]]; simpl;
      destruct (str_eqb k key_name); split; congruence.
  - right. left. reflexivity.
  - right. reflexivity.
Defined.

(** * Further properties of the program *)

(** ** Failures of the aggregator *)

Lemma add_row_err (py_int : pystr -> option Z) acc r e :
  add_row py_int acc r = Err e -> row_failure py_int r e.
Proof.
  unfold add_row, dict_lookup, parse_int, row_failure.
  destruct (dict_get key_name r) as [name|] eqn:Hn; simpl.
  - destruct (dict_get key_score r) as [text|] eqn:Ht; simpl.
    + destruct (py_int text) eqn:Hp; simpl; [discriminate|].
      intros [= <-]. right. right. exists text. repeat split; auto. discriminate.
    + intros [= <-]. right. left. repeat split; auto. discriminate.
  - intros [= <-]. left. auto.
Qed.

Lemma group_scores_err (py_int : pystr -> option Z) data acc e :
  group_scores py_int data acc = Err e ->
  exists r, In r data /\ row_failure py_int r e.
Proof.
  revert acc. induction data as [|r data IH]; intros acc; simpl; [discriminate|].
  destruct (add_row py_int acc r) as [acc'|e'] eqn:Hr; simpl.
  - intros H. destruct (IH _ H) as (r' & Hin & Hf). exists r'. auto.
  - intros [= <-]. exists r. split; [now left|]. eapply add_row_err; eassumption.
Qed.

(** X1. On rows whose cells are all strings (the lines of the file have at
    least as many cells as the header), the aggregator raises nothing but:
    the [KeyError] of a row without the name field or without the score
    field, the [ValueError] of a score that [int] rejects, or the
    [OverflowError] of a mean beyond the floats. *)
Theorem aggregator_failures (py_int : pystr -> option Z) (data : list row) (e : exn) :
  calculate_statistics py_int data = Err e ->
  (exists r, In r data /\ row_failure py_int r e) \/ e = OverflowError.
Proof.
  unfold calculate_statistics.
  destruct (group_scores py_int data []) as [groups|e'] eqn:Hg; simpl.
  - intros Hs. right.
    apply group_scores_ok in Hg as (recs & Hrecs & ->).
    rewrite summarize_each_stats in Hs
      by (simpl; apply NoDup_keys_group; constructor).
    destruct (each_stats (group_records recs [])) as [sts|e''] eqn:He; simpl in Hs;
      [discriminate|].
    injection Hs as <-. apply each_stats_err in He as (name & scores & Hin & Hst).
    apply group_records_entries in Hin as [Hname ->].
    apply person_stats_error in Hst as [-> _]; [reflexivity|].
    now apply scores_of_nonempty.
  - intros [= <-]. left. eapply group_scores_err. eassumption.
Qed.

Lemma aggregator_failures_witness :
  (exists r, In r bad_score_rows /\
             row_failure ascii_int r (ValueError (InvalidLiteral (lit "abc")))) \/
  ValueError (InvalidLiteral (lit "abc")) = OverflowError.
Proof.
  apply (aggregator_failures ascii_int bad_score_rows).
  reflexivity.
Defined.

Lemma Forall2_entry_of_group (groups : list (pystr * list Z)) (sts : dict stats) name scores :
  Forall2 (fun g s => fst s = fst g /\ person_stats (snd g) = Ok (snd s)) groups sts ->
  In (name, scores) groups ->
  exists st, In (name, st) sts /\ person_stats scores = Ok st.
Proof.
  induction 1 as [|[n sc] [n' s'] groups sts [Hk Hs] _ IH]; simpl; [tauto|].
  simpl in Hk, Hs. subst n'. intros [[= -> ->]|Hin].
  - exists s'. auto.
  - destruct (IH Hin) as (st & H1 & H2). exists st. auto.
Qed.

(** X2. The aggregator returns statistics exactly when every row reads as a
    record and the mean of every participant is within the floats. *)
Theorem aggregator_succeeds_iff (py_int : pystr -> option Z) (data : list row) :
  (exists statistics, calculate_statistics py_int data = Ok statistics) <->
  (exists recs, Forall2 (is_record py_int) data recs /\
                forall name, In name (names_of recs) ->
                             exists f, mean_of name recs = Ok f).
Proof.
  split.
  - intros (statistics & H).
    apply calculate_statistics_ok in H as (recs & Hrecs & Hs).
    exists recs. split; [assumption|]. intros name Hname.
    apply each_stats_ok in Hs.
    destruct (Forall2_entry_of_group _ _ _ _ Hs (In_group_records _ _ Hname))
      as (st & _ & Hst).
    apply person_stats_spec in Hst as [Hmean _]. eexists. exact Hmean.
  - intros (recs & Hrecs & Hmeans).
    rewrite (calculate_statistics_records _ _ _ Hrecs).
    destruct (each_stats (group_records recs [])) as [sts|e] eqn:He; [eauto|].
    apply each_stats_err in He as (name & scores & Hin & Hst).
    apply group_records_entries in Hin as [Hname ->].
    apply person_stats_error in Hst as [_ Hdiv]; [|now apply scores_of_nonempty].
    destruct (Hmeans _ Hname) as (f & Hf). unfold mean_of in Hf. congruence.
Qed.

(** ** Columns the aggregator does not read *)

Lemma add_row_same_cells (py_int : pystr -> option Z) acc r r' :
  same_cells r r' -> add_row py_int acc r = add_row py_int acc r'.
Proof.
  intros [Hn Hs]. unfold add_row, dict_lookup. now rewrite Hn, Hs.
Qed.

(** X3. Only the name and the score cell of a row matter: rows that agree on
    these two cells, whatever else they hold, aggregate to the same result. *)
Theorem other_columns_ignored (py_int : pystr -> option Z) (data data' : list row) :
  Forall2 same_cells data data' ->
  calculate_statistics py_int data = calculate_statistics py_int data'.
Proof.
  intros H. unfold calculate_statistics.
  assert (Hg : forall acc, group_scores py_int data acc = group_scores py_int data' acc).
  { induction H as [|r r' data data' Hr _ IH]; intros acc; simpl; [reflexivity|].
    rewrite (add_row_same_cells _ _ _ _ Hr).
    destruct (add_row py_int acc r'); simpl; auto. }
  now rewrite Hg.
Qed.

Lemma other_columns_ignored_witness :
  calculate_statistics ascii_int [wide_row (lit "A") (lit "7") (lit "x")] =
  calculate_statistics ascii_int [record_row (lit "A") (lit "7")].
Proof.
  apply (other_columns_ignored ascii_int).
  repeat constructor.
Defined.

(** ** Appending a row *)

Lemma is_record_functional (py_int : pystr -> option Z) r rec rec' :
  is_record py_int r rec -> is_record py_int r rec' -> rec = rec'.
Proof.
  intros [Hn (text & Ht & Hp)] [Hn' (text' & Ht' & Hp')].
  destruct rec, rec'. simpl in *. congruence.
Qed.

Lemma records_functional (py_int : pystr -> option Z) data recs recs' :
  Forall2 (is_record py_int) data recs -> Forall2 (is_record py_int) data recs' ->
  recs = recs'.
Proof.
  intros H. revert recs'. induction H as [|r rec data recs Hr _ IH]; intros recs' H'.
  - now inversion H'.
  - inversion H' as [|? rec' ? recs'' Hr' Hrest]; subst.
    f_equal; [eapply is_record_functional; eassumption|now apply IH].
Qed.

Lemma each_stats_app (g1 g2 : list (pystr * list Z)) :
  each_stats (g1 ++ g2) =
  (s1 <- each_stats g1 ;; s2 <- each_stats g2 ;; Ok (s1 ++ s2)).
Proof.
  induction g1 as [|[name scores] g1 IH]; simpl.
  - now destruct (each_stats g2).
  - destruct (person_stats scores); simpl; [|reflexivity].
    rewrite IH. destruct (each_stats g1); simpl; [|reflexivity].
    now destruct (each_stats g2).
Qed.

Lemma group_records_snoc (recs : list record) (rec : record) acc :
  group_records (recs ++ [rec]) acc = add_record (group_records recs acc) rec.
Proof. unfold group_records. now rewrite fold_left_app. Qed.

Lemma statistics_keys (recs : list record) (statistics : dict stats) :
  each_stats (group_records recs []) = Ok statistics ->
  keys statistics = keys (group_records recs []).
Proof.
  intros H. eapply Forall2_keys. apply each_stats_ok. exact H.
Qed.

(** The entry of a participant is the statistics of that participant's
    scores. *)
Lemma statistics_lookup (recs : list record) (statistics : dict stats) name st :
  each_stats (group_records recs []) = Ok statistics ->
  dict_get name statistics = Some st <->
  In name (names_of recs) /\ person_stats (scores_of name recs) = Ok st.
Proof.
  intros Hs. pose proof (each_stats_ok _ _ Hs) as HF. split.
  - intros Hget. apply dict_get_In in Hget.
    destruct (Forall2_entry _ _ _ _ HF Hget) as (scores & Hin & Hst).
    apply group_records_entries in Hin as [Hname ->]. auto.
  - intros [Hname Hst].
    destruct (Forall2_entry_of_group _ _ _ _ HF (In_group_records _ _ Hname))
      as (st' & Hin & Hst').
    assert (st' = st) by congruence. subst st'.
    apply In_dict_get; [|assumption].
    rewrite (statistics_keys _ _ Hs). apply NoDup_keys_group. constructor.
Qed.

(** X4. A row of a participant not seen before adds one entry at the end of
    the mapping, with average, max and min equal to that score, and leaves
    the other entries as they were. *)
Theorem append_new_participant (py_int : pystr -> option Z)
        (data : list row) (statistics : dict stats)
        (r : row) (name : pystr) (score : Z) (avg : float) :
  calculate_statistics py_int data = Ok statistics ->
  is_record py_int r (name, score) ->
  ~ In name (keys statistics) ->
  int_truediv score 1 = Ok avg ->
  calculate_statistics py_int (data ++ [r]) =
  Ok (statistics ++ [(name, single_stats avg score)]).
Proof.
  intros Hcalc Hr Hfresh Havg.
  apply calculate_statistics_ok in Hcalc as (recs & Hrecs & Hs).
  assert (Hrecs' : Forall2 (is_record py_int) (data ++ [r]) (recs ++ [(name, score)])).
  { apply Forall2_app; [assumption|]. constructor; [assumption|constructor]. }
  rewrite (calculate_statistics_records _ _ _ Hrecs'), group_records_snoc.
  rewrite (statistics_keys _ _ Hs) in Hfresh.
  unfold add_record. simpl fst. simpl snd.
  rewrite (proj2 (dict_get_None _ _) Hfresh), dict_set_absent by assumption.
  rewrite each_stats_app, Hs. simpl.
  unfold person_stats, sum. simpl. rewrite Havg. reflexivity.
Qed.

Lemma append_new_participant_witness :
  calculate_statistics ascii_int (scenario_rows ++ [record_row (lit "Carol") (lit "7")]) =
  Ok (scenario_statistics ++ [(lit "Carol", single_stats float_7 7)]).
Proof.
  apply (append_new_participant ascii_int scenario_rows scenario_statistics
           (record_row (lit "Carol") (lit "7")) (lit "Carol") 7 float_7).
  - reflexivity.
  - split; [reflexivity|]. eexists. split; reflexivity.
  - simpl. intuition discriminate.
  - reflexivity.
Defined.

Lemma scores_of_snoc name (recs : list record) (rec : record) :
  scores_of name (recs ++ [rec]) =
  scores_of name recs ++ (if str_eqb name (fst rec) then [snd rec] else []).
Proof.
  unfold scores_of. rewrite filter_app, map_app. simpl.
  now destruct (str_eqb name (fst rec)).
Qed.

Lemma is_max_snoc (l : list Z) (m x : Z) : is_max m l -> is_max (Z.max m x) (l ++ [x]).
Proof.
  intros [Hin Hall]. split.
  - rewrite in_app_iff. destruct (Z.max_spec m x) as [[_ ->]|[_ ->]]; simpl; auto.
  - apply Forall_app. split.
    + eapply Forall_impl; [|exact Hall]. simpl. lia.
    + constructor; [lia|constructor].
Qed.

Lemma is_min_snoc (l : list Z) (m x : Z) : is_min m l -> is_min (Z.min m x) (l ++ [x]).
Proof.
  intros [Hin Hall]. split.
  - rewrite in_app_iff. destruct (Z.min_spec m x) as [[_ ->]|[_ ->]]; simpl; auto.
  - apply Forall_app. split.
    + eapply Forall_impl; [|exact Hall]. simpl. lia.
    + constructor; [lia|constructor].
Qed.

(** The entries after a further row of a known participant, when the
    aggregation of the longer input succeeds. *)
Lemma append_known_entries (recs : list record) (statistics statistics' : dict stats)
      (name : pystr) (score : Z) (old : stats) :
  each_stats (group_records recs []) = Ok statistics ->
  dict_get name statistics = Some old ->
  each_stats (group_records (recs ++ [(name, score)]) []) = Ok statistics' ->
  keys statistics' = keys statistics /\
  (forall other, other <> name ->
                 dict_get other statistics' = dict_get other statistics) /\
  exists new, dict_get name statistics' = Some new /\
              max_score new = Z.max (max_score old) score /\
              min_score new = Z.min (min_score old) score /\
              mean_of name (recs ++ [(name, score)]) = Ok (average new).
Proof.
  intros Hs Hold Hcalc'.
  pose proof (proj1 (statistics_lookup _ _ _ _ Hs) Hold) as [Hname Hpold].
  assert (Hname' : In name (names_of (recs ++ [(name, score)]))).
  { unfold names_of. rewrite map_app, in_app_iff. now left. }
  split; [|split].
  - rewrite (statistics_keys _ _ Hcalc'), (statistics_keys _ _ Hs), group_records_snoc.
    rewrite keys_add_record. simpl fst.
    destruct (in_dec str_eq_dec name (keys (group_records recs []))) as [H|H];
      [reflexivity|].
    exfalso. apply H. apply In_keys_group. now right.
  - intros other Hne.
    assert (Hsc : scores_of other (recs ++ [(name, score)]) = scores_of other recs).
    { rewrite scores_of_snoc. simpl. apply str_eqb_neq in Hne. rewrite Hne.
      apply app_nil_r. }
    assert (Hnm : In other (names_of (recs ++ [(name, score)])) <-> In other (names_of recs)).
    { unfold names_of. rewrite map_app, in_app_iff. simpl. split; [|tauto].
      intros [H|[H|[]]]; [assumption|congruence]. }
    destruct (dict_get other statistics) as [s|] eqn:E.
    + apply (statistics_lookup _ _ _ _ Hcalc'). rewrite Hsc, Hnm.
      now apply (statistics_lookup _ _ _ _ Hs).
    + destruct (dict_get other statistics') as [s'|] eqn:E'; [|reflexivity].
      apply (statistics_lookup _ _ _ _ Hcalc') in E'. rewrite Hsc, Hnm in E'.
      apply (statistics_lookup _ _ _ _ Hs) in E'. congruence.
  - destruct (dict_get name statistics') as [new|] eqn:E.
    + exists new. split; [reflexivity|].
      apply (statistics_lookup _ _ _ _ Hcalc') in E as [_ Hpnew].
      apply person_stats_spec in Hpnew as (Hmean & Hmax & Hmin).
      rewrite scores_of_snoc in Hmax, Hmin. simpl in Hmax, Hmin.
      rewrite str_eqb_refl in Hmax, Hmin.
      apply person_stats_spec in Hpold as (_ & Hmax0 & Hmin0).
      split; [|split].
      * eapply is_max_unique; [exact Hmax|now apply is_max_snoc].
      * eapply is_min_unique; [exact Hmin|now apply is_min_snoc].
      * exact Hmean.
    + exfalso. apply dict_get_None in E. apply E.
      rewrite (statistics_keys _ _ Hcalc'). apply In_keys_group. now right.
Qed.

(** The only failure a further row of a known participant can bring is the
    overflow of that participant's new mean. *)
Lemma append_known_failure (recs : list record) (statistics : dict stats)
      (name : pystr) (score : Z) (e : exn) :
  each_stats (group_records recs []) = Ok statistics ->
  each_stats (group_records (recs ++ [(name, score)]) []) = Err e ->
  e = OverflowError /\ mean_of name (recs ++ [(name, score)]) = Err OverflowError.
Proof.
  intros Hs He.
  apply each_stats_err in He as (other & scores & Hin & Hst).
  apply group_records_entries in Hin as [Hother ->].
  apply person_stats_error in Hst as [-> Hdiv]; [|now apply scores_of_nonempty].
  split; [reflexivity|].
  destruct (str_eq_dec other name) as [->|Hne]; [exact Hdiv|].
  exfalso.
  assert (Hsc : scores_of other (recs ++ [(name, score)]) = scores_of other recs).
  { rewrite scores_of_snoc. simpl. apply str_eqb_neq in Hne. rewrite Hne.
    apply app_nil_r. }
  assert (Hnm : In other (names_of recs)).
  { unfold names_of in *. rewrite map_app, in_app_iff in Hother. simpl in Hother.
    destruct Hother as [H|[H|[]]]; [assumption|congruence]. }
  rewrite Hsc in Hdiv.
  destruct (Forall2_entry_of_group _ _ _ _ (each_stats_ok _ _ Hs)
              (In_group_records _ _ Hnm)) as (st & _ & Hst).
  apply person_stats_spec in Hst as (Hmean & _). congruence.
Qed.

(** X5. A further row of a known participant either makes the aggregator
    raise [OverflowError], when that participant's new mean is beyond the
    floats, or keeps the participants and their order, leaves every other
    entry unchanged, and gives that participant the new mean as average and
    the max and min updated with the new score. *)
Theorem append_known_participant (py_int : pystr -> option Z)
        (data : list row) (statistics : dict stats)
        (r : row) (name : pystr) (score : Z) (old : stats) :
  calculate_statistics py_int data = Ok statistics ->
  is_record py_int r (name, score) ->
  dict_get name statistics = Some old ->
  exists recs,
    Forall2 (is_record py_int) data recs /\
    match calculate_statistics py_int (data ++ [r]) with
    | Ok statistics' =>
        keys statistics' = keys statistics /\
        (forall other, other <> name ->
                       dict_get other statistics' = dict_get other statistics) /\
        exists new, dict_get name statistics' = Some new /\
                    max_score new = Z.max (max_score old) score /\
                    min_score new = Z.min (min_score old) score /\
                    mean_of name (recs ++ [(name, score)]) = Ok (average new)
    | Err e =>
        e = OverflowError /\
        mean_of name (recs ++ [(name, score)]) = Err OverflowError
    end.
Proof.
  intros Hcalc Hr Hold.
  apply calculate_statistics_ok in Hcalc as (recs & Hrecs & Hs).
  exists recs. split; [assumption|].
  assert (Hrecs' : Forall2 (is_record py_int) (data ++ [r]) (recs ++ [(name, score)])).
  { apply Forall2_app; [assumption|]. constructor; [assumption|constructor]. }
  rewrite (calculate_statistics_records _ _ _ Hrecs').
  destruct (each_stats (group_records (recs ++ [(name, score)]) []))
    as [statistics'|e] eqn:E.
  - now apply (append_known_entries recs).
  - now apply (append_known_failure recs statistics).
Qed.

Lemma append_known_participant_witness :
  exists recs,
    Forall2 (is_record ascii_int) scenario_rows recs /\
    match calculate_statistics ascii_int
            (scenario_rows ++ [record_row (lit "Bob") (lit "70")]) with
    | Ok statistics' =>
        keys statistics' = keys scenario_statistics /\
        (forall other, other <> lit "Bob" ->
                       dict_get other statistics' = dict_get other scenario_statistics) /\
        exists new, dict_get (lit "Bob") statistics' = Some new /\
                    max_score new = Z.max (max_score bob_stats) 70 /\
                    min_score new = Z.min (min_score bob_stats) 70 /\
                    mean_of (lit "Bob") (recs ++ [(lit "Bob", 70)]) = Ok (average new)
    | Err e =>
        e = OverflowError /\
        mean_of (lit "Bob") (recs ++ [(lit "Bob", 70)]) = Err OverflowError
    end.
Proof.
  apply (append_known_participant ascii_int scenario_rows scenario_statistics
           (record_row (lit "Bob") (lit "70")) (lit "Bob") 70 bob_stats).
  - reflexivity.
  - split; [reflexivity|]. eexists. split; reflexivity.
  - reflexivity.
Defined.

(** Both outcomes occur: a further score of 70 for Bob is aggregated, a
    further score of 2^1025 after a score of 90 overflows the mean. *)
Example append_known_both_outcomes :
  calculate_statistics ascii_int (scenario_rows ++ [record_row (lit "Bob") (lit "70")])
  = Ok scenario_statistics_bob /\
  calculate_statistics ascii_int overflow_rows
  = Ok [(lit "Bob", bob_stats)] /\
  calculate_statistics ascii_int (overflow_rows ++ [overflow_row]) = Err OverflowError.
Proof.
  split; [|split]; vm_compute; reflexivity.
Qed.

(** ** Order of the participants *)

Lemma filter_twice {A : Type} (f g : A -> bool) (l : list A) :
  filter f (filter g l) = filter (fun x => g x && f x) l.
Proof.
  induction l as [|x l IH]; simpl; [reflexivity|].
  destruct (g x); simpl; [destruct (f x)|]; now rewrite IH.
Qed.

Lemma fresh_in_spec (names : list pystr) (name : pystr) :
  fresh_in names name = true <-> ~ In name names.
Proof.
  unfold fresh_in. rewrite negb_true_iff, <- not_true_iff_false, existsb_exists.
  split; intros H C; apply H.
  - exists name. split; [assumption|apply str_eqb_refl].
  - destruct C as (x & Hx & E). apply str_eqb_eq in E. now subst.
Qed.

(** The keys after the first loop: those already present, then the new
    names at their first occurrence. *)
Lemma keys_group_records (recs : list record) (acc : dict (list Z)) :
  keys (group_records recs acc) =
  keys acc ++ filter (fresh_in (keys acc)) (first_occurrences (names_of recs)).
Proof.
  revert acc. induction recs as [|[name score] recs IH]; intros acc.
  - simpl. now rewrite app_nil_r.
  - change (group_records ((name, score) :: recs) acc)
      with (group_records recs (add_record acc (name, score))).
    rewrite IH, keys_add_record. simpl fst. cbn [names_of List.map first_occurrences fst].
    fold (names_of recs).
    destruct (in_dec str_eq_dec name (keys acc)) as [Hin|Hin]; cbn [filter].
    + assert (E : fresh_in (keys acc) name = false).
      { apply not_true_iff_false. rewrite fresh_in_spec. tauto. }
      rewrite E, filter_twice. f_equal. apply filter_ext_in. intros y _.
      destruct (fresh_in (keys acc) y) eqn:F; [|now rewrite andb_false_r].
      rewrite andb_true_r. apply fresh_in_spec in F.
      symmetry. apply negb_true_iff, str_eqb_neq. congruence.
    + rewrite (proj2 (fresh_in_spec _ _) Hin), <- app_assoc. simpl. do 2 f_equal.
      rewrite filter_twice. apply filter_ext. intros y.
      unfold fresh_in. rewrite existsb_app. simpl. rewrite orb_false_r, negb_orb.
      apply andb_comm.
Qed.

(** X6. The mapping lists the participants in the order of their first
    occurrence in the input. *)
Theorem participants_in_first_occurrence_order (py_int : pystr -> option Z)
        (data : list row) (recs : list record) (statistics : dict stats) :
  Forall2 (is_record py_int) data recs ->
  calculate_statistics py_int data = Ok statistics ->
  keys statistics = first_occurrences (names_of recs).
Proof.
  intros Hrecs Hcalc. rewrite (calculate_statistics_records _ _ _ Hrecs) in Hcalc.
  rewrite (statistics_keys _ _ Hcalc), keys_group_records. simpl.
  rewrite (filter_ext _ (fun _ => true)) by reflexivity.
  clear. induction (first_occurrences (names_of recs)) as [|x l IH]; simpl;
    [reflexivity|now rewrite IH].
Qed.

Lemma participants_in_first_occurrence_order_witness :
  keys scenario_statistics = first_occurrences (names_of scenario_records).
Proof.
  apply (participants_in_first_occurrence_order ascii_int scenario_rows).
  - repeat constructor; simpl; eexists; split; reflexivity.
  - reflexivity.
Defined.

(** ** Runs of the program *)

Lemma calculate_statistics_nonempty (py_int : pystr -> option Z)
      (data : list row) (statistics : dict stats) :
  data <> [] -> calculate_statistics py_int data = Ok statistics -> statistics <> [].
Proof.
  intros Hne Hcalc.
  apply calculate_statistics_ok in Hcalc as (recs & Hrecs & Hs).
  destruct Hrecs as [|r rec data recs Hr Hrest]; [congruence|].
  assert (Hk : In (fst rec) (keys statistics)).
  { rewrite (statistics_keys _ _ Hs). apply In_keys_group. right. now left. }
  intros ->. destruct Hk.
Qed.

(** The aggregator does not raise [FileNotFoundError]. *)
Lemma aggregator_not_file_error (py_int : pystr -> option Z) (data : list row) (e : exn) :
  calculate_statistics py_int data = Err e -> e <> FileNotFoundError.
Proof.
  unfold calculate_statistics.
  destruct (group_scores py_int data []) as [groups|e'] eqn:Hg; simpl.
  - intros Hs.
    apply group_scores_ok in Hg as (recs & Hrecs & ->).
    rewrite summarize_each_stats in Hs
      by (simpl; apply NoDup_keys_group; constructor).
    destruct (each_stats (group_records recs [])) as [sts|e''] eqn:He; simpl in Hs;
      [discriminate|].
    injection Hs as <-. apply each_stats_err in He as (name & scores & Hin & Hst).
    apply group_records_entries in Hin as [Hname ->].
    apply person_stats_error in Hst as [-> _]; [discriminate|].
    now apply scores_of_nonempty.
  - intros [= <-]. apply group_scores_err in Hg as (r & _ & H).
    destruct H as [[_ ->]|[(_ & _ & ->)|(text & _ & _ & _ & ->)]]; discriminate.
Qed.

(** What [main] prints, by the outcome of each stage. *)
Lemma run_by_stage (py_int : pystr -> option Z) (describe : exn -> pystr)
      (fs : filesystem) (pal : palette) :
  run py_int describe fs pal =
  match fs CSV_FILE with
  | Err FileNotFoundError => msg_loading :: not_found_message
  | Err e => msg_loading :: generic_message describe e
  | Ok data =>
      [msg_loading; loaded_line data; msg_computing] ++
      match calculate_statistics py_int data with
      | Err e => generic_message describe e
      | Ok statistics =>
          computed_line statistics ::
          match find_max_min_average statistics with
          | Err e => generic_message describe e
          | Ok (mx, mn) => table_lines pal statistics mx mn
          end
      end
  end.
Proof.
  destruct (fs CSV_FILE) as [data|e] eqn:Hfs.
  - destruct (calculate_statistics py_int data) as [statistics|e] eqn:Hcalc.
    + unfold run, main, main_body, io_bind, print, lift.
      rewrite load_csv_data_reader, Hfs. simpl. rewrite Hcalc. simpl.
      destruct (find_max_min_average statistics) as [[mx mn]|e] eqn:Hfind.
      * rewrite (display_table_output _ _ _ _ _ Hfind). simpl. reflexivity.
      * unfold display_table, io_bind, lift. rewrite Hfind.
        unfold find_max_min_average in Hfind.
        destruct (List.map average (values statistics)) as [|a l]; simpl in Hfind;
          [|discriminate].
        injection Hfind as <-. reflexivity.
    + apply run_aggregation_error; [assumption|assumption|].
      now apply (aggregator_not_file_error py_int data).
  - rewrite (run_load_error _ _ _ _ _ Hfs). now destruct e.
Qed.

(** X7. For a file with at least one row, whose lines all have at least as
    many cells as the header (every cell of a row, and so every name, is
    then a string) and whose rows all aggregate, [main] prints the four
    progress lines (with the number of rows and the number of participants)
    followed by the complete table. *)
Theorem successful_run (py_int : pystr -> option Z) (describe : exn -> pystr)
        (fs : filesystem) (pal : palette) (data : list row) (statistics : dict stats) :
  fs CSV_FILE = Ok data ->
  data <> [] ->
  calculate_statistics py_int data = Ok statistics ->
  exists mx mn,
    find_max_min_average statistics = Ok (mx, mn) /\
    run py_int describe fs pal =
    [msg_loading; loaded_line data; msg_computing; computed_line statistics] ++
    table_lines pal statistics mx mn.
Proof.
  intros Hfs Hne Hcalc.
  pose proof (calculate_statistics_nonempty _ _ _ Hne Hcalc) as Hst.
  destruct (find_max_min_average_spec _ Hst) as (mx & mn & Hfind & _).
  exists mx, mn. split; [assumption|].
  now rewrite run_by_stage, Hfs, Hcalc, Hfind.
Qed.

Lemma successful_run_witness :
  exists mx mn,
    find_max_min_average scenario_statistics = Ok (mx, mn) /\
    run ascii_int describe_exn scenario_fs colorama =
    [msg_loading; loaded_line scenario_rows; msg_computing;
     computed_line scenario_statistics] ++
    table_lines colorama scenario_statistics mx mn.
Proof.
  apply (successful_run ascii_int describe_exn scenario_fs colorama scenario_rows).
  - reflexivity.
  - discriminate.
  - reflexivity.
Defined.

(** X8. For a file without rows [main] reports no participants and then
    the exception of [max] on an empty sequence through the generic error
    message; it prints no table. *)
Theorem empty_file_run (py_int : pystr -> option Z) (describe : exn -> pystr)
        (fs : filesystem) (pal : palette) :
  fs CSV_FILE = Ok [] ->
  run py_int describe fs pal =
  [msg_loading; loaded_line []; msg_computing; computed_line []] ++
  generic_message describe empty_max_error.
Proof.
  intros Hfs. now rewrite run_by_stage, Hfs.
Qed.

Lemma empty_file_run_witness :
  run ascii_int describe_exn empty_fs plain =
  [msg_loading; loaded_line []; msg_computing; computed_line []] ++
  generic_message describe_exn empty_max_error.
Proof.
  apply (empty_file_run ascii_int describe_exn empty_fs plain).
  reflexivity.
Defined.

Lemma not_rule (line : pystr) (c : N) : In c line -> c <> 61%N -> line <> rule.
Proof.
  intros Hin Hc ->. apply Hc. unfold rule in Hin. now apply repeat_spec in Hin.
Qed.

Lemma generic_message_no_rule (describe : exn -> pystr) (e : exn) :
  ~ In rule (generic_message describe e).
Proof.
  intros [H|[]]. revert H.
  apply (not_rule _ 12456%N); [now left|discriminate].
Qed.

(** X9. For a file whose lines all have at least as many cells as the
    header (every cell of a row is then a string), [main] prints the table
    entirely or not at all: a rule line in its output means that loading,
    aggregation and the search of the extremes all succeeded and that the
    output is the four progress lines followed by the complete table. *)
Theorem no_partial_table (py_int : pystr -> option Z) (describe : exn -> pystr)
        (fs : filesystem) (pal : palette) :
  In rule (run py_int describe fs pal) ->
  exists data statistics mx mn,
    fs CSV_FILE = Ok data /\
    calculate_statistics py_int data = Ok statistics /\
    find_max_min_average statistics = Ok (mx, mn) /\
    run py_int describe fs pal =
    [msg_loading; loaded_line data; msg_computing; computed_line statistics] ++
    table_lines pal statistics mx mn.
Proof.
  rewrite run_by_stage.
  assert (Hload : msg_loading <> rule).
  { apply (not_rule _ 67%N); [now left|discriminate]. }
  assert (Hcomp : msg_computing <> rule).
  { apply (not_rule _ 32113%N); [now left|discriminate]. }
  assert (Hloaded : forall data, loaded_line data <> rule).
  { intros data. apply (not_rule _ 12487%N); [now left|discriminate]. }
  assert (Hcomputed : forall st, computed_line st <> rule).
  { intros st. apply (not_rule _ 12290%N); [|discriminate].
    unfold computed_line, msg_computed_post. rewrite in_app_iff. right.
    simpl. tauto. }
  assert (Hnf : ~ In rule not_found_message).
  { intros [H|[H|[]]]; revert H.
    - apply (not_rule _ 12456%N); [now left|discriminate].
    - apply (not_rule _ 12501%N); [now left|discriminate]. }
  destruct (fs CSV_FILE) as [data|e] eqn:Hfs.
  + destruct (calculate_statistics py_int data) as [statistics|e] eqn:Hcalc.
    * destruct (find_max_min_average statistics) as [[mx mn]|e] eqn:Hfind.
      -- intros _. exists data, statistics, mx, mn.
         rewrite Hcalc, Hfind. repeat split; reflexivity.
      -- intros [H|[H|[H|[H|H]]]];
           solve [ congruence | now apply Hloaded in H | now apply Hcomputed in H
                 | now apply generic_message_no_rule in H ].
    * intros [H|[H|[H|H]]];
        solve [ congruence | now apply Hloaded in H
              | now apply generic_message_no_rule in H ].
  + assert (Hgen : In rule (msg_loading :: generic_message describe e) -> False).
    { intros [H|H]; [congruence|now apply generic_message_no_rule in H]. }
    destruct e; intros H; try (exfalso; exact (Hgen H)).
    destruct H as [H|H]; [congruence|contradiction].
Qed.

Lemma no_partial_table_witness :
  exists data statistics mx mn,
    scenario_fs CSV_FILE = Ok data /\
    calculate_statistics ascii_int data = Ok statistics /\
    find_max_min_average statistics = Ok (mx, mn) /\
    run ascii_int describe_exn scenario_fs colorama =
    [msg_loading; loaded_line data; msg_computing; computed_line statistics] ++
    table_lines colorama statistics mx mn.
Proof.
  apply (no_partial_table ascii_int describe_exn scenario_fs colorama).
  vm_compute. do 6 right. left. reflexivity.
Defined.

(** X10. A failure of the load step other than a missing file is reported by
    the generic error message, right after the first progress line. *)
Theorem load_failure_run (py_int : pystr -> option Z) (describe : exn -> pystr)
        (fs : filesystem) (pal : palette) (e : exn) :
  fs CSV_FILE = Err e ->
  e <> FileNotFoundError ->
  run py_int describe fs pal = msg_loading :: generic_message describe e.
Proof.
  intros Hfs Hne. rewrite run_by_stage, Hfs. destruct e; congruence.
Qed.

Lemma load_failure_run_witness :
  run ascii_int describe_exn denied_fs plain =
  msg_loading :: generic_message describe_exn (OtherError (lit "Permission denied")).
Proof.
  apply (load_failure_run ascii_int describe_exn denied_fs plain).
  - reflexivity.
  - discriminate.
Defined.

(** X11. Whatever exception the aggregator raises, [main] prints the
    three progress lines up to the aggregation and then the generic error
    message with that exception; the number of participants and the table
    are not printed. *)
Theorem aggregation_failure_run (py_int : pystr -> option Z) (describe : exn -> pystr)
        (fs : filesystem) (pal : palette) (data : list row) (e : exn) :
  fs CSV_FILE = Ok data ->
  calculate_statistics py_int data = Err e ->
  run py_int describe fs pal =
  [msg_loading; loaded_line data; msg_computing] ++ generic_message describe e.
Proof.
  intros Hfs Hcalc. now rewrite run_by_stage, Hfs, Hcalc.
Qed.

Lemma aggregation_failure_run_witness :
  run ascii_int describe_exn huge_fs plain =
  [msg_loading; loaded_line huge_rows; msg_computing] ++
  generic_message describe_exn OverflowError.
Proof.
  apply (aggregation_failure_run ascii_int describe_exn huge_fs plain huge_rows).
  - reflexivity.
  - vm_compute. reflexivity.
Defined.

(** ** The whole program *)

(** What [main] adds to the lines printed before it, by the outcome of each
    stage. *)
Lemma main_by_stage (py_int : pystr -> option Z) (describe : exn -> pystr)
      (fs : filesystem) (pal : palette) (out : output) :
  fst (main py_int describe fs pal out) =
  out ++
  match fs CSV_FILE with
  | Err FileNotFoundError => msg_loading :: not_found_message
  | Err e => msg_loading :: generic_message describe e
  | Ok data =>
      [msg_loading; loaded_line data; msg_computing] ++
      match calculate_statistics py_int data with
      | Err e => generic_message describe e
      | Ok statistics =>
          computed_line statistics ::
          match find_max_min_average statistics with
          | Err e => generic_message describe e
          | Ok (mx, mn) => table_lines pal statistics mx mn
          end
      end
  end.
Proof.
  destruct (fs CSV_FILE) as [data|e] eqn:Hfs.
  - unfold main, main_body, io_bind, print, lift.
    rewrite load_csv_data_reader, Hfs. cbn [fst snd].
    destruct (calculate_statistics py_int data) as [statistics|e] eqn:Hcalc.
    + destruct (find_max_min_average statistics) as [[mx mn]|e] eqn:Hfind.
      * rewrite (display_table_output _ _ _ _ _ Hfind). cbn [fst].
        unfold loaded_line, computed_line. rewrite <- !app_assoc. reflexivity.
      * unfold display_table, io_bind, lift. rewrite Hfind.
        unfold find_max_min_average in Hfind.
        destruct (List.map average (values statistics)) as [|a l]; simpl in Hfind;
          [|discriminate].
        injection Hfind as <-. cbn [fst].
        unfold loaded_line, computed_line. rewrite <- !app_assoc. reflexivity.
    + pose proof (aggregator_not_file_error _ _ _ Hcalc) as Hne.
      destruct e; try congruence; cbn [fst];
        unfold loaded_line; rewrite <- !app_assoc; reflexivity.
  - rewrite (main_load_error _ _ _ _ _ _ Hfs). now destruct e.
Qed.

(** [main] only adds lines to the output. *)
Lemma main_append (py_int : pystr -> option Z) (describe : exn -> pystr)
      (fs : filesystem) (pal : palette) (out : output) :
  fst (main py_int describe fs pal out) = out ++ run py_int describe fs pal.
Proof.
  unfold run. rewrite (main_by_stage _ _ _ _ out), (main_by_stage _ _ _ _ []).
  reflexivity.
Qed.

(** X19. What the program prints when run as a script: nothing before the
    lines of [main] when colorama is importable; the notice that colorama is
    not installed and the notice that the installation succeeded, then the
    lines of [main] with colours, when the installer succeeds; the first
    notice and the notice of the failure, then the lines of [main] without
    colours, when the installer or the second import fails; and only the
    lines printed so far, without any line of [main], when an exception
    escapes the start-up. *)
Theorem program_output (py_int : pystr -> option Z) (describe : exn -> pystr)
        (env : environment) (fs : filesystem) :
  (first_try env = Succeeds ->
   program py_int describe env fs = run py_int describe fs colorama) /\
  (first_try env = RaisesImportError -> second_try env = Succeeds ->
   program py_int describe env fs =
   msg_not_installed :: msg_installed :: run py_int describe fs colorama) /\
  (first_try env = RaisesImportError ->
   second_try env = RaisesImportError \/ second_try env = RaisesException ->
   program py_int describe env fs =
   msg_not_installed :: msg_install_failed :: run py_int describe fs plain) /\
  (first_try env = RaisesImportError -> second_try env = RaisesBaseException ->
   program py_int describe env fs = [msg_not_installed]) /\
  (first_try env = RaisesException \/ first_try env = RaisesBaseException ->
   program py_int describe env fs = []).
Proof.
  unfold program, startup.
  destruct (first_try env) eqn:E1; [| destruct (second_try env) eqn:E2 | |];
    rewrite ?main_append; cbn [app];
    (split; [intros; try discriminate; reflexivity|]);
    (split; [intros; try discriminate; reflexivity|]);
    (split; [intros ? [?|?]; try discriminate; reflexivity|]);
    (split; [intros; try discriminate; reflexivity|]);
    intros [?|?]; try discriminate; reflexivity.
Qed.

(** ** The extremes finder *)

(** X12. On a non-empty mapping the extremes finder returns two averages of
    the mapping, the first not below and the second not above any average;
    in particular the first is not below the second. *)
Theorem extremes_bracket_averages (statistics : dict stats) :
  statistics <> [] ->
  exists mx mn,
    find_max_min_average statistics = Ok (mx, mn) /\
    In mx (averages statistics) /\ In mn (averages statistics) /\
    (forall a, In a (averages statistics) ->
               float_ltb mx a = false /\ float_ltb a mn = false) /\
    float_ltb mx mn = false.
Proof.
  intros Hne.
  destruct (find_max_min_average_spec _ Hne) as (mx & mn & Hf & [Imx Amx] & [Imn Amn]).
  exists mx, mn. rewrite Forall_forall in Amx, Amn.
  repeat split; try assumption.
  - apply float_ltb_ge. now apply Amx.
  - apply float_ltb_ge. now apply Amn.
  - apply float_ltb_ge. now apply Amx.
Qed.

Lemma extremes_bracket_averages_witness :
  exists mx mn,
    find_max_min_average scenario_statistics = Ok (mx, mn) /\
    In mx (averages scenario_statistics) /\ In mn (averages scenario_statistics) /\
    (forall a, In a (averages scenario_statistics) ->
               float_ltb mx a = false /\ float_ltb a mn = false) /\
    float_ltb mx mn = false.
Proof.
  apply (extremes_bracket_averages scenario_statistics).
  discriminate.
Defined.

(** ** A lone participant *)

(** X13. With a single participant, who has both the highest and the lowest
    average, the only row is printed with the "high" emphasis. *)
Theorem lone_participant_is_high (pal : palette) (name : pystr) (st : stats)
        (out : output) :
  display_table pal [(name, st)] out =
  (out ++ table_head ++ [row_line pal High name st] ++ table_foot pal, Ok tt).
Proof.
  rewrite (display_table_output _ _ (average st) (average st)) by reflexivity.
  unfold table_lines, marked_rows, sorted_entries, entry_of. simpl.
  rewrite str_eqb_refl. simpl. unfold marked_line, row_emphasis. simpl.
  now rewrite float_eqb_refl.
Qed.

(** ** The fallback without colours *)

Lemma plain_line (row : emphasis * (pystr * stats)) :
  marked_line plain row = bare_line row.
Proof.
  unfold marked_line, bare_line, row_line. destruct (fst row); simpl;
    now rewrite app_nil_r.
Qed.

(** X14. With the empty codes of the fallback classes the participant lines
    are the bare column texts, and with any codes they are these same texts
    between the start and the end code of their emphasis: the colouring
    changes neither the content nor the order of the rows. *)
Theorem colours_wrap_plain_rows (pal : palette) (statistics : dict stats) (out : output) :
  statistics <> [] ->
  exists mx mn,
    find_max_min_average statistics = Ok (mx, mn) /\
    fst (display_table plain statistics out) =
      out ++ table_head ++ List.map bare_line (marked_rows statistics mx mn) ++
      table_foot plain /\
    fst (display_table pal statistics out) =
      out ++ table_head ++
      List.map (fun row => color_start pal (fst row) ++ bare_line row ++
                           color_end pal (fst row))
               (marked_rows statistics mx mn) ++
      table_foot pal.
Proof.
  intros Hne.
  destruct (find_max_min_average_spec _ Hne) as (mx & mn & Hf & _).
  exists mx, mn. split; [assumption|].
  rewrite !(display_table_output _ _ _ _ _ Hf). unfold table_lines. cbn [fst].
  split.
  - now rewrite (map_ext _ _ plain_line).
  - reflexivity.
Qed.

Lemma colours_wrap_plain_rows_witness :
  exists mx mn,
    find_max_min_average scenario_statistics = Ok (mx, mn) /\
    fst (display_table plain scenario_statistics []) =
      [] ++ table_head ++ List.map bare_line (marked_rows scenario_statistics mx mn) ++
      table_foot plain /\
    fst (display_table colorama scenario_statistics []) =
      [] ++ table_head ++
      List.map (fun row => color_start colorama (fst row) ++ bare_line row ++
                           color_end colorama (fst row))
               (marked_rows scenario_statistics mx mn) ++
      table_foot colorama.
Proof.
  apply (colours_wrap_plain_rows colorama scenario_statistics []).
  discriminate.
Defined.

(** ** Width of the rows *)

(** X15. A row whose four fields fit their columns is 68 characters long, like
    the heading, so the columns line up; a name of more than 20 characters
    is printed in full and makes its row longer. *)
Theorem row_width (name : pystr) (stat : stats) :
  List.length (columns head_name head_average head_max head_min) = 68%nat /\
  ((List.length name <= 20)%nat ->
   (List.length (format_score (average stat)) <= 15)%nat ->
   (List.length (str_of_int (max_score stat)) <= 15)%nat ->
   (List.length (str_of_int (min_score stat)) <= 15)%nat ->
   List.length (row_text name stat) = 68%nat) /\
  ((20 < List.length name)%nat ->
   (68 < List.length (row_text name stat))%nat /\
   firstn (List.length name) (row_text name stat) = name).
Proof.
  split; [reflexivity|].
  assert (Hlen : forall c1 c2 c3 c4,
             List.length (columns c1 c2 c3 c4) =
             (Nat.max 20 (List.length c1) + Nat.max 15 (List.length c2) +
              Nat.max 15 (List.length c3) + Nat.max 15 (List.length c4) + 3)%nat).
  { intros. unfold columns, name_width, avg_width, max_width, min_width.
    repeat (rewrite length_app || rewrite ljust_length || cbn [List.length]). lia. }
  split.
  - intros H1 H2 H3 H4. unfold row_text. rewrite Hlen. lia.
  - intros H. split.
    + unfold row_text. rewrite Hlen. lia.
    + unfold row_text, columns, ljust, name_width.
      replace (20 - List.length name)%nat with 0%nat by lia. simpl repeat.
      rewrite app_nil_r, firstn_app, firstn_all, Nat.sub_diag. simpl.
      apply app_nil_r.
Qed.

(** ** The loader *)

(** X16. The loader returns the rows of the reader in their order, none added
    or dropped, and lets the exception of a failed read through. *)
Theorem loader_passes_reader_through (fs : filesystem) (filename : pystr) :
  load_csv_data fs filename = fs filename.
Proof.
  unfold load_csv_data. destruct (fs filename) as [rows|e]; simpl; [|reflexivity].
  f_equal. apply append_loop.
Qed.

(** ** Printing of the averages *)

Lemma round_half_even_exact (k den : Z) : 0 < den -> round_half_even (k * den) den = k.
Proof.
  intros Hd. unfold round_half_even. rewrite Z.div_mul, Z.mod_mul by lia.
  destruct (Z.compare_spec (2 * 0) den); lia.
Qed.

Lemma fixed1_integer (s : bool) (k : Z) :
  0 <= k ->
  fixed1 s (10 * k) = sign_text s ++ str_of_N (Z.to_N k) ++ lit ".0".
Proof.
  intros Hk. unfold fixed1.
  rewrite (Z.mul_comm 10 k), Z.div_mul, Z.mod_mul by lia. reflexivity.
Qed.

Lemma str_of_int_sign (q : Z) :
  str_of_int q = sign_text (q <? 0) ++ str_of_N (Z.to_N (Z.abs q)).
Proof.
  unfold str_of_int.
  replace (Z.to_N (Z.abs q)) with (Z.abs_N q)
    by (now rewrite <- N2Z.inj_abs_N, N2Z.id).
  now destruct (q <? 0).
Qed.

(** A float whose value is the non-zero integer [q] prints as [q] followed
    by ".0". *)
Lemma format_integer_value (f : float) (q : Z) :
  q <> 0 -> (F2Q f == inject_Z q)%Q ->
  format_score f = str_of_int q ++ lit ".0".
Proof.
  intros Hq HE. destruct f as [s|s m e]; simpl in HE.
  - unfold Qeq in HE. simpl in HE. lia.
  - unfold format_score. rewrite str_of_int_sign, <- app_assoc.
    unfold dyadic in HE. unfold tenths.
    destruct (Z.leb_spec 0 e) as [He|He].
    + unfold Qeq in HE. cbn [Qnum Qden inject_Z] in HE. rewrite !Z.mul_1_r in HE.
      assert (Hp : 0 < 2 ^ e) by (apply Z.pow_pos_nonneg; lia).
      assert (Hk : Z.pos m * 2 ^ e = Z.abs q).
      { destruct s; cbn [signed] in HE; nia. }
      replace (10 * Z.pos m * 2 ^ e) with (10 * Z.abs q) by lia.
      rewrite fixed1_integer by lia. f_equal.
      destruct s; cbn [signed] in HE; destruct (Z.ltb_spec q 0); try reflexivity; nia.
    + assert (Hp : 0 < 2 ^ (- e)) by (apply Z.pow_pos_nonneg; lia).
      unfold Qeq in HE. cbn [Qnum Qden inject_Z] in HE.
      rewrite Z2Pos.id, Z.mul_1_r in HE by assumption.
      assert (Hk : Z.pos m = Z.abs q * 2 ^ (- e)).
      { destruct s; cbn [signed] in HE; nia. }
      replace (10 * Z.pos m) with ((10 * Z.abs q) * 2 ^ (- e)) by lia.
      rewrite round_half_even_exact by assumption.
      rewrite fixed1_integer by lia. f_equal.
      destruct s; cbn [signed] in HE; destruct (Z.ltb_spec q 0); try reflexivity; nia.
Qed.

(** X17. When the exact mean of a participant's scores is an integer [q] of
    magnitude at most 2^53, the average is printed as [q] followed by
    ".0". *)
Theorem integer_mean_printed (py_int : pystr -> option Z)
        (data : list row) (recs : list record) (statistics : dict stats)
        (name : pystr) (st : stats) (q : Z) :
  Forall2 (is_record py_int) data recs ->
  calculate_statistics py_int data = Ok statistics ->
  dict_get name statistics = Some st ->
  sum (scores_of name recs) = q * Z.of_nat (List.length (scores_of name recs)) ->
  - 2 ^ 53 <= q <= 2 ^ 53 ->
  format_score (average st) = str_of_int q ++ lit ".0".
Proof.
  intros Hrecs Hcalc Hget Hsum Hq.
  rewrite (calculate_statistics_records _ _ _ Hrecs) in Hcalc.
  apply (statistics_lookup _ _ _ _ Hcalc) in Hget as [Hname Hst].
  apply person_stats_spec in Hst as (Hdiv & _ & _).
  pose proof (scores_of_nonempty _ _ Hname) as Hne.
  set (scores := scores_of name recs) in *.
  assert (Hlen : 0 < Z.of_nat (List.length scores)).
  { destruct scores; [congruence|cbn [List.length]; lia]. }
  destruct (Z.eq_dec q 0) as [->|Hq0].
  - rewrite Hsum in Hdiv. simpl in Hdiv.
    destruct (Z.of_nat (List.length scores)); try lia.
    simpl in Hdiv. injection Hdiv as <-. reflexivity.
  - destruct (int_truediv_between (sum scores) (Z.of_nat (List.length scores)) q q)
      as (f & Hf & H1 & H2); try lia.
    rewrite Hdiv in Hf. injection Hf as <-.
    apply format_integer_value; [assumption|].
    apply int_le_float_iff in H1. apply float_le_int_iff in H2.
    now apply Qle_antisym.
Qed.

Lemma integer_mean_printed_witness :
  format_score (average bob_stats) = str_of_int 90 ++ lit ".0".
Proof.
  apply (integer_mean_printed ascii_int scenario_rows scenario_records
           scenario_statistics (lit "Bob") bob_stats 90).
  - repeat constructor; simpl; eexists; split; reflexivity.
  - reflexivity.
  - reflexivity.
  - reflexivity.
  - simpl. lia.
Defined.

(** X18. The text of an average is the sign, then the digits of [n / 10], a
    point and the digit [n mod 10], for the integer [n] nearest to ten times
    the magnitude of the average: the printed number is within 0.05 of the
    average. *)
Theorem format_score_nearest_tenth (score : float) :
  exists n : Z,
    0 <= n /\
    format_score score =
      sign_text (float_neg score) ++ str_of_N (Z.to_N (n / 10)) ++
      dot :: str_of_N (Z.to_N (n mod 10)) /\
    (Qabs (Qabs (F2Q score) * inject_Z 10 - inject_Z n) <= 1 # 2)%Q.
Proof.
  destruct score as [s|s m e].
  - exists 0. split; [lia|]. split; [reflexivity|]. simpl. unfold Qle. simpl. lia.
  - exists (tenths m e). unfold tenths.
    assert (Hn : 0 <= (if 0 <=? e then 10 * Z.pos m * 2 ^ e
                       else round_half_even (10 * Z.pos m) (2 ^ (- e)))).
    { destruct (Z.leb_spec 0 e).
      - apply Z.mul_nonneg_nonneg; [lia|]. apply Z.pow_nonneg. lia.
      - apply round_half_even_nonneg; [apply Z.pow_pos_nonneg|]; lia. }
    split; [exact Hn|]. split; [reflexivity|].
    rewrite Qabs_F2Q. unfold dyadic.
    apply Qabs_Qle_condition.
    destruct (Z.leb_spec 0 e) as [He|He].
    + unfold Qle, Qminus, Qplus, Qmult, Qopp. cbn [Qnum Qden inject_Z].
      rewrite ?Pos.mul_1_r, ?Z.mul_1_r. split; nia.
    + assert (Hp : 0 < 2 ^ (- e)) by (apply Z.pow_pos_nonneg; lia).
      pose proof (round_half_even_error (10 * Z.pos m) (2 ^ (- e)) Hp) as Herr.
      unfold Qle, Qminus, Qplus, Qmult, Qopp. cbn [Qnum Qden inject_Z].
      rewrite !Pos.mul_1_r, !Z.mul_1_r, Z2Pos.id by assumption.
      split; nia.
Qed.
